(** * image-compress-golang-webp: the conversion-request pipeline

    A shallow embedding of the four variants of the single-endpoint
    server (the two programs of [src/main.go], [src/unnamed/part_000] and
    [src/unnamed/part_001]) and of the library calls they rely on, with
    the properties of the natural-language specification stated over it.

    Go strings are [string]; the filesystem is a finite map from cleaned
    paths to nodes; the handler is a function from the state of the world
    to a response and the state it leaves behind.  Every fallible call
    also leaves an entry in a journal, so that "the encoder failed" or
    "the directory was made" can be said of a run.  Calls to
    [log.Printf] only write to the process's standard error, and
    [file.Close()] and [inputFile.Close()] release descriptors; they are
    left out. *)

From Stdlib Require Import ZArith Ascii String List Bool.
From stdpp Require Import base option list gmap strings fin_maps pretty.

Local Open Scope string_scope.
Local Open Scope list_scope.
Local Open Scope Z_scope.

(** ** Strings: the fragment of package [strings] and slicing that is used *)

Module Str.

Definition chars (s : string) : list ascii := list_ascii_of_string s.
Definition of_chars (l : list ascii) : string := string_of_list_ascii l.

Definition slash : ascii := "/"%char.
Definition dot : ascii := "."%char.

Definition is_slash (c : ascii) : bool := Ascii.eqb c slash.
Definition is_dot (c : ascii) : bool := Ascii.eqb c dot.

(** [strings.HasPrefix(s, p)] *)
Definition HasPrefix (s p : string) : bool := String.prefix p s.

(** [s[:n]] for [0 <= n <= len(s)] *)
Definition slice_to (s : string) (n : nat) : string := substring 0 n s.

(** [strings.Split(s, "/")]: the pieces of [s] between slashes; never
    empty, and one longer than the number of slashes. *)
Fixpoint split_slash (s : string) : list string :=
  match s with
  | EmptyString => [EmptyString]
  | String c r =>
      if is_slash c then EmptyString :: split_slash r
      else match split_slash r with
           | h :: t => String c h :: t
           | [] => [String c EmptyString]
           end
  end.

(** [strings.Join(l, "/")] *)
Fixpoint join_slash (l : list string) : string :=
  match l with
  | [] => EmptyString
  | [x] => x
  | x :: r => x +:+ String slash (join_slash r)
  end.

Fixpoint has_slash (s : string) : bool :=
  match s with
  | EmptyString => false
  | String c r => is_slash c || has_slash r
  end.

Fixpoint has_dot (s : string) : bool :=
  match s with
  | EmptyString => false
  | String c r => is_dot c || has_dot r
  end.

End Str.

(** ** Package [path/filepath] on a Unix target *)

Module filepath.
Import Str.

(** A path in structured form: whether it is rooted, and its elements
    innermost first (the head is the final element).  This is what
    [Clean] computes before it prints the result, and it is the key
    under which the filesystem stores a node. *)
Definition path : Type := bool * list string.

Definition rooted (s : string) : bool :=
  match s with
  | String c _ => is_slash c
  | EmptyString => false
  end.

(** One element of the path under [Clean]'s rules: empty elements and
    [.] vanish, [..] removes the element before it, is dropped at the
    root and is kept at the start of a relative path. *)
Definition clean_step (r : bool) (st : list string) (e : string) : list string :=
  if String.eqb e "" || String.eqb e "." then st
  else if String.eqb e ".." then
    match st with
    | top :: rest => if String.eqb top ".." then e :: st else rest
    | [] => if r then [] else [e]
    end
  else e :: st.

Definition clean_elems (r : bool) (st : list string) (es : list string) : list string :=
  fold_left (clean_step r) es st.

Definition key_of (s : string) : path :=
  (rooted s, clean_elems (rooted s) [] (split_slash s)).

Definition render (p : path) : string :=
  let (r, st) := p in
  if r then String slash (join_slash (rev st))
  else match st with
       | [] => "."
       | _ => join_slash (rev st)
       end.

(** [filepath.Clean] *)
Definition Clean (s : string) : string := render (key_of s).

(** [filepath.Join]: leading empty elements are ignored, the rest is
    joined with slashes and cleaned; no non-empty element gives [""]. *)
Fixpoint Join (elem : list string) : string :=
  match elem with
  | [] => ""
  | e :: rest => if String.eqb e "" then Join rest else Clean (join_slash elem)
  end.

(** [filepath.Ext]'s loop, from the last byte down to the first slash:
    [rest] is what is still to the left, read right to left, and [suf]
    what has been passed. *)
Fixpoint ext_scan (rest : list ascii) (suf : list ascii) : list ascii :=
  match rest with
  | [] => []
  | c :: r =>
      if is_slash c then []
      else if is_dot c then c :: suf
      else ext_scan r (c :: suf)
  end.

(** [filepath.Ext] *)
Definition Ext (s : string) : string := of_chars (ext_scan (rev (chars s)) []).

Fixpoint drop_trailing_slashes (rs : list ascii) : list ascii :=
  match rs with
  | c :: r => if is_slash c then drop_trailing_slashes r else rs
  | [] => []
  end.

Fixpoint take_to_slash (rs : list ascii) (acc : list ascii) : list ascii :=
  match rs with
  | c :: r => if is_slash c then acc else take_to_slash r (c :: acc)
  | [] => acc
  end.

(** [filepath.Base] *)
Definition Base (s : string) : string :=
  if String.eqb s "" then "."
  else
    let rs := drop_trailing_slashes (rev (chars s)) in
    match take_to_slash rs [] with
    | [] => "/"
    | b => of_chars b
    end.

End filepath.

(** ** The functions of the repository on names *)

(** [filenameWithoutExt], identical in the four variants *)
Definition filenameWithoutExt (filename : string) : string :=
  let ext := filepath.Ext filename in
  Str.slice_to filename (String.length filename - String.length ext).

(** [outputFilename := filenameWithoutExt(header.Filename) + ".webp"] *)
Definition outputFilename (filename : string) : string :=
  filenameWithoutExt filename +:+ ".webp".

(** ** Results of fallible calls: a value, or Go's non-nil [error] with its text *)

Inductive result (A : Type) : Type :=
| Ok (a : A)
| Err (msg : string).
Arguments Ok {A} a.
Arguments Err {A} msg.

Definition error_of {A : Type} (r : result A) : option string :=
  match r with
  | Ok _ => None
  | Err msg => Some msg
  end.

(** ** Package [os]: the filesystem, the environment, subprocesses *)

Module os.
Import Str filepath.

Inductive node : Type :=
| Dir
| File (data : string).

(** The fallible calls a handler makes.  A command carries the combined
    output that was captured. *)
Inductive call : Type :=
| CallFormFile (key : string)
| CallMkdirTemp (name : string)
| CallCreate (name : string)
| CallCopy (dst : path)
| CallGetwd
| CallCommand (argv : list string) (output : string)
| CallReadFile (name : string)
| CallRemoveAll (name : string).

Record event : Type := mkEvent {
  what : call;
  failure : option string
}.

(** What a request can observe and change: the files on disk, and the
    journal of the calls that were made, oldest first.  The journal is
    ghost state: no code reads it. *)
Record State : Type := mkState {
  disk : gmap path node;
  journal : list event
}.

Definition record (c : call) (e : option string) (st : State) : State :=
  mkState (disk st) (journal st ++ [mkEvent c e]).

(** What the handler cannot decide: the environment, the working
    directory, the random names, the faults of the system calls
    ([spill_fault]: the temporary file of the multipart parser cannot be
    created or written), and the external encoder (the filesystem it
    leaves, its combined standard output and error, and the error of
    [CombinedOutput]). *)
Record World : Type := mkWorld {
  environ : gmap string string;
  cwd : result string;
  rands : list N;
  mkdir_fault : bool;
  create_fault : bool;
  copy_fault : option nat;
  read_fault : bool;
  spill_fault : bool;
  run : list string -> gmap path node -> gmap path node * string * option string
}.

(** [os.Getenv]: the empty string when the variable is not set *)
Definition Getenv (w : World) (k : string) : string := default "" (environ w !! k).

(** [os.Getwd] *)
Definition Getwd (w : World) (st : State) : result string * State :=
  (cwd w, record CallGetwd (error_of (cwd w)) st).

(** [os.TempDir] *)
Definition TempDir (w : World) : string :=
  let dir := Getenv w "TMPDIR" in
  if String.eqb dir "" then "/tmp" else dir.

(** The root, the working directory and what lies above it are
    directories that are always there. *)
Definition implicit_dir (k : path) : bool :=
  match k.2 with
  | [] => true
  | e :: _ => String.eqb e ".."
  end.

Definition is_dir (fs : gmap path node) (k : path) : bool :=
  implicit_dir k || match fs !! k with Some Dir => true | _ => false end.

Definition present (fs : gmap path node) (k : path) : bool :=
  implicit_dir k || match fs !! k with Some _ => true | None => false end.

Definition parent (k : path) : path := (k.1, tail k.2).

(** [d] is [k] or an ancestor of [k] *)
Definition under (d k : path) : Prop := d.1 = k.1 /\ d.2 `suffix_of` k.2.

#[global] Instance under_dec d k : Decision (under d k).
Proof. unfold under. apply _. Defined.

Inductive errno : Type := EEXIST | ENOENT | EIO.

(** [os.Mkdir] *)
Definition Mkdir (w : World) (name : string) (fs : gmap path node)
  : errno + gmap path node :=
  let k := key_of name in
  if present fs k then inl EEXIST
  else if negb (is_dir fs (parent k)) then inl ENOENT
  else if mkdir_fault w then inl EIO
  else inr (<[k := Dir]> fs).

Definition last_is_slash (s : string) : bool :=
  match rev (chars s) with
  | c :: _ => is_slash c
  | [] => false
  end.

Definition joinPath (dir name : string) : string :=
  if last_is_slash dir then dir +:+ name else dir +:+ String slash name.

(** The loop of [os.MkdirTemp]: a fresh random name at each round, a new
    round only when the name is taken; [rs] holds the numbers that are
    drawn, and the call gives up when they are used up (Go: after 10000
    rounds). *)
Fixpoint MkdirTemp_try (w : World) (prefix : string) (rs : list N)
    (fs : gmap path node) : result (string * gmap path node) :=
  match rs with
  | [] => Err "file exists"
  | r :: rs' =>
      let name := prefix +:+ pretty r in
      match Mkdir w name fs with
      | inr fs' => Ok (name, fs')
      | inl EEXIST => MkdirTemp_try w prefix rs' fs
      | inl ENOENT => Err "no such file or directory"
      | inl EIO => Err "input/output error"
      end
  end.

(** [os.MkdirTemp(dir, prefix + "*")] *)
Definition MkdirTemp (w : World) (dir prefix : string) (st : State)
  : result string * State :=
  let dir := if String.eqb dir "" then TempDir w else dir in
  match MkdirTemp_try w (joinPath dir prefix) (rands w) (disk st) with
  | Ok (name, fs') =>
      (Ok name, record (CallMkdirTemp name) None (mkState fs' (journal st)))
  | Err e => (Err e, record (CallMkdirTemp "") (Some e) st)
  end.

(** [os.OpenFile(name, O_RDWR|O_CREATE|O_EXCL, 0600)] *)
Definition OpenFile_excl (w : World) (name : string) (fs : gmap path node)
  : errno + gmap path node :=
  let k := key_of name in
  if present fs k then inl EEXIST
  else if negb (is_dir fs (parent k)) then inl ENOENT
  else if spill_fault w then inl EIO
  else inr (<[k := File ""]> fs).

(** The loop of [os.CreateTemp], that of [os.MkdirTemp] with a file *)
Fixpoint CreateTemp_try (w : World) (prefix : string) (rs : list N)
    (fs : gmap path node) : result (string * gmap path node) :=
  match rs with
  | [] => Err "file exists"
  | r :: rs' =>
      let name := prefix +:+ pretty r in
      match OpenFile_excl w name fs with
      | inr fs' => Ok (name, fs')
      | inl EEXIST => CreateTemp_try w prefix rs' fs
      | inl ENOENT => Err "no such file or directory"
      | inl EIO => Err "input/output error"
      end
  end.

(** [os.CreateTemp(dir, prefix)]: the name of the new, empty file *)
Definition CreateTemp (w : World) (dir prefix : string) (fs : gmap path node)
  : result (string * gmap path node) :=
  let dir := if String.eqb dir "" then TempDir w else dir in
  CreateTemp_try w (joinPath dir prefix) (rands w) fs.

Definition Create_check (w : World) (k : path) (fs : gmap path node) : option string :=
  if is_dir fs k then Some "is a directory"
  else if negb (is_dir fs (parent k)) then Some "no such file or directory"
  else if create_fault w then Some "permission denied"
  else None.

(** [os.Create]: the file is created or truncated; the open file is
    known by its key. *)
Definition Create (w : World) (name : string) (st : State) : result path * State :=
  let k := key_of name in
  match Create_check w k (disk st) with
  | Some e => (Err e, record (CallCreate name) (Some e) st)
  | None =>
      (Ok k, record (CallCreate name) None (mkState (<[k := File ""]> (disk st)) (journal st)))
  end.

(** [io.Copy(dst, src)] into an open file: all of the data, or a part
    of it and an error. *)
Definition Copy (w : World) (dst : path) (data : string) (st : State)
  : result unit * State :=
  match copy_fault w with
  | None =>
      (Ok tt, record (CallCopy dst) None (mkState (<[dst := File data]> (disk st)) (journal st)))
  | Some n =>
      (Err "short write",
       record (CallCopy dst) (Some "short write")
         (mkState (<[dst := File (slice_to data n)]> (disk st)) (journal st)))
  end.

Definition ReadFile_pure (w : World) (k : path) (fs : gmap path node) : result string :=
  match fs !! k with
  | Some (File data) => if read_fault w then Err "input/output error" else Ok data
  | Some Dir => Err "is a directory"
  | None => Err "no such file or directory"
  end.

(** [os.ReadFile] *)
Definition ReadFile (w : World) (name : string) (st : State) : result string * State :=
  let r := ReadFile_pure w (key_of name) (disk st) in
  (r, record (CallReadFile name) (error_of r) st).

Definition outside (d : path) (kv : path * node) : Prop := ~ under d kv.1.

#[global] Instance outside_dec d kv : Decision (outside d kv).
Proof. unfold outside. apply _. Defined.

(** [os.RemoveAll]: the path and everything it contains.  The handler
    drops its error, and none is modelled. *)
Definition RemoveAll (name : string) (st : State) : State :=
  record (CallRemoveAll name) None
    (mkState (filter (outside (key_of name)) (disk st)) (journal st)).

(** [exec.Command(name, arg...).CombinedOutput()] *)
Definition CombinedOutput (w : World) (argv : list string) (st : State)
  : string * option string * State :=
  let '(fs', out, err) := run w argv (disk st) in
  (out, err, record (CallCommand argv out) err (mkState fs' (journal st))).

End os.

(** ** Package [net/http] and [mime/multipart]: the parsed request *)

Module http.
Import Str filepath os.

Definition StatusOK : Z := 200.
Definition StatusNoContent : Z := 204.
Definition StatusBadRequest : Z := 400.
Definition StatusNotFound : Z := 404.
Definition StatusInternalServerError : Z := 500.

(** A part of the multipart body: the form field it belongs to, the
    [filename] parameter of its [Content-Disposition] as it was sent
    (empty when there is none: the part is then a plain value), and its
    bytes. *)
Record Part : Type := mkPart {
  field : string;
  sent_name : string;
  content : string
}.

(** [Form] is [None] when the body is not a multipart form that can be
    parsed. *)
Record Request : Type := mkRequest {
  Method : string;
  URLPath : string;
  Query : list (string * string);
  Form : option (list Part)
}.

Record FileHeader : Type := mkFileHeader {
  Filename : string;
  Size : Z
}.

(** [Part.FileName]: the name that was sent, passed through
    [filepath.Base] when it is not empty. *)
Definition FileName (p : Part) : string :=
  if String.eqb (sent_name p) "" then "" else Base (sent_name p).

(** The parts that [ReadForm] stores as files are those with a name. *)
Definition is_file (p : Part) : bool := negb (String.eqb (FileName p) "").

Definition FormFile_pure (r : Request) (key : string) : result (string * FileHeader) :=
  match Form r with
  | None => Err "request Content-Type isn't multipart/form-data"
  | Some parts =>
      match List.find (fun p => String.eqb (field p) key && is_file p) parts with
      | Some p =>
          Ok (content p, mkFileHeader (FileName p) (Z.of_nat (String.length (content p))))
      | None => Err "http: no such file"
      end
  end.

(** The memory that [Request.FormFile] grants the parser: 32 MiB *)
Definition defaultMaxMemory : Z := Z.shiftl 32 20.

(** The loop of [multipart.Reader.ReadForm] over the parts, as far as it
    decides where the bytes of the files go.  A part without a field
    name is skipped.  A file that fits in what is left of the memory
    stays in memory and is charged to it; the bytes of a file that does
    not fit are written to the temporary file of the form.  [spilled]
    is what that file holds in the end: nothing when every file has
    stayed in memory. *)
Fixpoint spilled (maxFileMemoryBytes : Z) (parts : list Part) : string :=
  match parts with
  | [] => ""
  | p :: rest =>
      if String.eqb (field p) "" || negb (is_file p)
      then spilled maxFileMemoryBytes rest
      else
        let n := Z.of_nat (String.length (content p)) in
        if maxFileMemoryBytes <? n
        then content p +:+ spilled maxFileMemoryBytes rest
        else spilled (maxFileMemoryBytes - n) rest
  end.

(** [multipart.Reader.ReadForm(maxMemory)] on a body that is well formed:
    the temporary file [multipart-*] is made in [os.TempDir()] when the
    first file has to leave the memory, and it is still there when the
    handler returns ([net/http] removes it afterwards); when it cannot
    be made or written the form is given up, and no file is left.  The
    files that leave the memory share the one file (with
    [GODEBUG=multipartfiles=distinct] each has a file of its own). *)
Definition ReadForm (w : World) (maxMemory : Z) (parts : list Part)
    (fs : gmap path node) : result (list Part) * gmap path node :=
  let data := spilled maxMemory parts in
  if String.eqb data "" then (Ok parts, fs)
  else
    match CreateTemp w "" "multipart-" fs with
    | Ok (name, fs') => (Ok parts, <[key_of name := File data]> fs')
    | Err e => (Err e, fs)
    end.

(** [Request.ParseMultipartForm(maxMemory)] *)
Definition ParseMultipartForm (w : World) (r : Request) (maxMemory : Z)
    (fs : gmap path node) : result (list Part) * gmap path node :=
  match Form r with
  | None => (Err "request Content-Type isn't multipart/form-data", fs)
  | Some parts => ReadForm w maxMemory parts fs
  end.

(** [Request.FormFile(key)]: the form is parsed, then the first file of
    the field is handed over, from the memory or from the temporary
    file; the error is that of the parser, or [http.ErrMissingFile]. *)
Definition FormFile (w : World) (r : Request) (key : string) (st : State)
  : result (string * FileHeader) * State :=
  let '(form, fs) := ParseMultipartForm w r defaultMaxMemory (disk st) in
  let res := match form with
             | Err e => Err e
             | Ok _ => FormFile_pure r key
             end in
  (res, record (CallFormFile key) (error_of res) (mkState fs (journal st))).

End http.

(** ** Package [encoding/json]: how a Go string is written *)

Module json.
Import Str.

Definition byte (c : ascii) : N := N_of_ascii c.

Definition between (lo hi : N) (c : ascii) : bool :=
  ((lo <=? byte c) && (byte c <=? hi))%N.

(** A continuation byte, [0x80] to [0xBF] *)
Definition continuation (c : ascii) : bool := between 128 191 c.

(** [utf8.DecodeRuneInString]: the number of bytes of the encoding at
    the head of the string, 0 where Go returns [RuneError] with width 1
    (or with width 0, on the empty string).  The second byte of a
    sequence has a range of its own after [0xE0], [0xED], [0xF0] and
    [0xF4]. *)
Definition rune_size (l : list ascii) : nat :=
  match l with
  | [] => 0
  | s0 :: t =>
      if (byte s0 <? 128)%N then 1
      else if between 194 223 s0 then
        match t with
        | s1 :: _ => if continuation s1 then 2 else 0
        | _ => 0
        end
      else if between 224 239 s0 then
        match t with
        | s1 :: s2 :: _ =>
            let lo := if (byte s0 =? 224)%N then 160%N else 128%N in
            let hi := if (byte s0 =? 237)%N then 159%N else 191%N in
            if between lo hi s1 && continuation s2 then 3 else 0
        | _ => 0
        end
      else if between 240 244 s0 then
        match t with
        | s1 :: s2 :: s3 :: _ =>
            let lo := if (byte s0 =? 240)%N then 144%N else 128%N in
            let hi := if (byte s0 =? 244)%N then 143%N else 191%N in
            if between lo hi s1 && continuation s2 && continuation s3 then 4 else 0
        | _ => 0
        end
      else 0
  end.

(** U+FFFD in UTF-8 *)
Definition replacement : list ascii := ["239"; "191"; "189"]%char.

(** The loop of the encoder over the bytes of a string, read back: a
    valid sequence denotes itself (the escapes that are written for
    quotes, control characters, [<], [>], [&], U+2028 and U+2029 denote
    the same characters), and each byte that begins no valid sequence
    is written as [\ufffd].  [skip] counts the bytes that are left of
    the sequence at hand. *)
Fixpoint coerce (skip : nat) (l : list ascii) : list ascii :=
  match l with
  | [] => []
  | c :: rest =>
      match skip with
      | S k => c :: coerce k rest
      | O =>
          match rune_size l with
          | O => replacement ++ coerce 0 rest
          | S k => c :: coerce k rest
          end
      end
  end.

(** The string that a client reads where [json.Marshal] has written the
    Go string [s] *)
Definition string_value (s : string) : string := of_chars (coerce 0 (chars s)).

(** [utf8.ValidString] *)
Fixpoint valid_from (skip : nat) (l : list ascii) : bool :=
  match l with
  | [] => true
  | _ :: rest =>
      match skip with
      | S k => valid_from k rest
      | O =>
          match rune_size l with
          | O => false
          | S k => valid_from k rest
          end
      end
  end.

Definition ValidString (s : string) : bool := valid_from 0 (chars s).

End json.

(** ** The fragment of [github.com/gin-gonic/gin] that is used *)

Module gin.
Import http.

Inductive body : Type :=
| NoBody
| JSONBody (obj : gmap string string)
| BytesBody (data : string)
| TextBody (text : string).

(** The response under construction: [gin.Context] as far as the handlers
    write to it. *)
Record Context : Type := mkContext {
  status : Z;
  header : gmap string string;
  payload : body
}.

Definition fresh : Context := mkContext StatusOK ∅ NoBody.

(** [c.Header(key, value)]: an empty value removes the header *)
Definition Header (key value : string) (c : Context) : Context :=
  if String.eqb value ""
  then mkContext (status c) (delete key (header c)) (payload c)
  else mkContext (status c) (<[key := value]> (header c)) (payload c).

(** The content type is written only when none is set yet. *)
Definition writeContentType (value : string) (h : gmap string string)
  : gmap string string :=
  match h !! "Content-Type" with
  | Some _ => h
  | None => <["Content-Type" := value]> h
  end.

(** [c.JSON(code, gin.H{...})] with string values: the payload is the
    object that is handed over, and [received] is what the client reads
    of it. *)
Definition JSON (code : Z) (obj : gmap string string) (c : Context) : Context :=
  mkContext code (writeContentType "application/json; charset=utf-8" (header c))
    (JSONBody obj).

(** The body as the client reads it: an object has gone through
    [encoding/json], bytes and text are sent as they are.  The keys of
    the objects of this program are ASCII literals, which denote
    themselves. *)
Definition received (b : body) : body :=
  match b with
  | JSONBody obj => JSONBody (json.string_value <$> obj)
  | _ => b
  end.

(** [c.Data(code, contentType, data)] *)
Definition Data (code : Z) (contentType data : string) (c : Context) : Context :=
  mkContext code (writeContentType contentType (header c)) (BytesBody data).

(** [c.AbortWithStatus(code)] *)
Definition AbortWithStatus (code : Z) (c : Context) : Context :=
  mkContext code (header c) NoBody.

(** The answer of the engine when no route matches *)
Definition serveError404 (c : Context) : Context :=
  mkContext StatusNotFound (<["Content-Type" := "text/plain"]> (header c))
    (TextBody "404 page not found").

(** [c.GetQuery(key)]: the first value of the key in the query string,
    also when it is empty. *)
Definition GetQuery (r : Request) (key : string) : option string :=
  match List.find (fun kv => String.eqb kv.1 key) (Query r) with
  | Some kv => Some kv.2
  | None => None
  end.

(** [c.DefaultQuery(key, defaultValue)] *)
Definition DefaultQuery (r : Request) (key defaultValue : string) : string :=
  match GetQuery r key with
  | Some value => value
  | None => defaultValue
  end.

Inductive handler : Type := Health | Debug | Convert.

(** [gin.Engine] as far as [main] configures it *)
Record Engine : Type := mkEngine {
  MaxMultipartMemory : Z;
  cors : bool;
  routes : list (string * string * handler)
}.

(** [gin.Default()]: the engine's own limit is 32 MiB *)
Definition Default : Engine := mkEngine (Z.shiftl 32 20) false [].

Definition Use_cors (e : Engine) : Engine :=
  mkEngine (MaxMultipartMemory e) true (routes e).

Definition set_MaxMultipartMemory (n : Z) (e : Engine) : Engine :=
  mkEngine n (cors e) (routes e).

Definition Handle (method path : string) (h : handler) (e : Engine) : Engine :=
  mkEngine (MaxMultipartMemory e) (cors e) (routes e ++ [(method, path, h)]).

Definition GET := Handle "GET".
Definition POST := Handle "POST".

Definition lookup_route (e : Engine) (r : Request) : option handler :=
  match List.find (fun mph => String.eqb mph.1.1 (Method r) && String.eqb mph.1.2 (URLPath r))
          (routes e) with
  | Some mph => Some mph.2
  | None => None
  end.

(** [RedirectTrailingSlash], which [gin.Default()] leaves on: a path
    other than [/] that matches no route of its method, and that a slash
    more or a slash less at its end turns into one, is answered by the
    engine with a redirect (301 for [GET], 307 otherwise) before any
    middleware has run. *)
Definition redirected (e : Engine) (r : Request) : bool :=
  negb (String.eqb (URLPath r) "/")
  && existsb (fun mph =>
                String.eqb mph.1.1 (Method r)
                && (String.eqb mph.1.2 (URLPath r +:+ "/")
                    || String.eqb (mph.1.2 +:+ "/") (URLPath r)))
       (routes e).

End gin.

(** ** The server *)

Import Str filepath os http gin.

(** The four programs of the repository: the two of [src/main.go] (the
    first logs and has [/debug], the second is the Railway build),
    [src/unnamed/part_000] and [src/unnamed/part_001]. *)
Inductive variant : Type := main_go_a | main_go_b | part_000 | part_001.

(** [gin.H{key: value}] *)
Definition H1 (key value : string) : gmap string string := {[ key := value ]}.

(** [getCwebpPath] of [src/main.go]; the two programs differ in the last
    line only, the path returned when [LIBWEBP_PATH] is not set. *)
Definition getCwebpPath (unset : string) (w : World) (st : State)
  : result string * State :=
  let libwebpPath := Getenv w "LIBWEBP_PATH" in
  if negb (String.eqb libwebpPath "") then
    if HasPrefix libwebpPath "/" then
      (Ok (Join [libwebpPath; "bin"; "cwebp"]), st)
    else
      match Getwd w st with
      | (Err err, st') => (Err ("failed to get working directory: " +:+ err), st')
      | (Ok workDir, st') => (Ok (Join [workDir; libwebpPath; "bin"; "cwebp"]), st')
      end
  else (Ok unset, st).

(** The step of [convertToWebP] that finds the encoder: the path, or the
    text of the ["error"] field of the 500 response. *)
Definition encoderPath (v : variant) (w : World) (st : State) : result string * State :=
  match v with
  | main_go_a => getCwebpPath "cwebp" w st
  | main_go_b => getCwebpPath "/app/libwebp/bin/cwebp" w st
  | part_000 =>
      let libwebpPath := Getenv w "LIBWEBP_PATH" in
      if String.eqb libwebpPath ""
      then (Err "LIBWEBP_PATH environment variable not set", st)
      else
        match Getwd w st with
        | (Err _, st') => (Err "Failed to get working directory", st')
        | (Ok workDir, st') => (Ok (Join [workDir; libwebpPath; "bin"; "cwebp"]), st')
        end
  | part_001 => (Ok "cwebp", st)
  end.

(** The value that follows [-q] *)
Definition qualityArg (v : variant) (r : Request) : string :=
  match v with
  | part_000 => "80"
  | _ => DefaultQuery r "quality" "80"
  end.

(** [convertToWebP] from [defer os.RemoveAll(tempDir)] to its return *)
Definition convert_staged (v : variant) (w : World) (r : Request)
    (file : string) (hdr : FileHeader) (tempDir : string)
    (c : Context) (st : State) : Context * State :=
  let inputPath := Join [tempDir; Filename hdr] in
  match Create w inputPath st with
  | (Err _, st1) =>
      (JSON StatusInternalServerError (H1 "error" "Failed to save uploaded file") c, st1)
  | (Ok inputFile, st1) =>
      match Copy w inputFile file st1 with
      | (Err _, st2) =>
          (JSON StatusInternalServerError (H1 "error" "Failed to copy uploaded file") c, st2)
      | (Ok _, st2) =>
          let outputName := outputFilename (Filename hdr) in
          let outputPath := Join [tempDir; outputName] in
          match encoderPath v w st2 with
          | (Err msg, st3) => (JSON StatusInternalServerError (H1 "error" msg) c, st3)
          | (Ok cwebpPath, st3) =>
              let quality := qualityArg v r in
              let '(output, err, st4) :=
                CombinedOutput w [cwebpPath; "-q"; quality; inputPath; "-o"; outputPath] st3 in
              match err with
              | Some _ =>
                  (JSON StatusInternalServerError
                     (<["details" := output]> (H1 "error" "Failed to convert image")) c,
                   st4)
              | None =>
                  match ReadFile w outputPath st4 with
                  | (Err _, st5) =>
                      (JSON StatusInternalServerError
                         (H1 "error" "Failed to read converted file") c, st5)
                  | (Ok webpData, st5) =>
                      (Data StatusOK "image/webp" webpData
                         (Header "Content-Disposition"
                            ("attachment; filename=" +:+ outputName) c),
                       st5)
                  end
              end
          end
      end
  end.

(** [convertToWebP] *)
Definition convertToWebP (v : variant) (w : World) (r : Request)
    (c : Context) (st : State) : Context * State :=
  match FormFile w r "image" st with
  | (Err _, st0) => (JSON StatusBadRequest (H1 "error" "No image file provided") c, st0)
  | (Ok (file, hdr), st0) =>
      match MkdirTemp w "" "webp-convert-" st0 with
      | (Err _, st1) =>
          (JSON StatusInternalServerError (H1 "error" "Failed to create temp directory") c,
           st1)
      | (Ok tempDir, st1) =>
          let '(c', st') := convert_staged v w r file hdr tempDir c st1 in
          (c', RemoveAll tempDir st')
      end
  end.

(** The handler of [/health] *)
Definition health (c : Context) : Context := JSON StatusOK (H1 "status" "ok") c.

(** The middleware of [part_001] *)
Definition cors_headers (c : Context) : Context :=
  Header "Access-Control-Allow-Headers" "Content-Type"
    (Header "Access-Control-Allow-Methods" "GET, POST, OPTIONS"
       (Header "Access-Control-Allow-Origin" "*" c)).

Definition port_of (w : World) : string :=
  let port := Getenv w "PORT" in
  if String.eqb port "" then "8080" else port.

(** [main] up to [router.Run]: the engine it has configured and the
    address it listens on.  The first program of [src/main.go] also
    looks for the encoder when it starts, for its log only. *)
Definition main (v : variant) (w : World) : Engine * string :=
  match v with
  | main_go_a =>
      let router := Default in
      let router := set_MaxMultipartMemory (Z.shiftl 10 20) router in
      let router := GET "/health" Health router in
      let router := GET "/debug" Debug router in
      let router := POST "/convert" Convert router in
      (router, ":" +:+ port_of w)
  | main_go_b =>
      let router := Default in
      let router := set_MaxMultipartMemory (Z.shiftl 10 20) router in
      let router := GET "/health" Health router in
      let router := POST "/convert" Convert router in
      (router, ":" +:+ port_of w)
  | part_000 =>
      let router := Default in
      let router := set_MaxMultipartMemory (Z.shiftl 10 20) router in
      let router := POST "/convert" Convert router in
      (router, ":8080")
  | part_001 =>
      let router := Default in
      let router := Use_cors router in
      let router := set_MaxMultipartMemory (Z.shiftl 10 20) router in
      let router := GET "/health" Health router in
      let router := POST "/convert" Convert router in
      (router, ":" +:+ port_of w)
  end.

(** The context a handler of the variant starts from *)
Definition context0 (v : variant) (w : World) : Context :=
  if cors (main v w).1 then cors_headers fresh else fresh.

(** One request served by the engine that [main] has set up.  The
    middleware of [part_001] runs ahead of the handlers and of the
    answer to an unknown route; no route has the method [OPTIONS], so
    that its preflight is answered there.  Two answers are outside this
    development, and a request that gets one of them has none here: that
    of the handler of [/debug], which inspects the installation, and the
    engine's redirect of a path that differs from a route by a trailing
    slash. *)
Definition serve (v : variant) (w : World) (r : Request) (st : State)
  : option (Context * State) :=
  let router := (main v w).1 in
  let c := context0 v w in
  if cors router && String.eqb (Method r) "OPTIONS"
  then Some (AbortWithStatus StatusNoContent c, st)
  else
    match lookup_route router r with
    | None =>
        if redirected router r then None
        else Some (serveError404 c, st)
    | Some Health => Some (health c, st)
    | Some Convert => Some (convertToWebP v w r c st)
    | Some Debug => None
    end.

(** * The vocabulary of the properties *)

(** ** Names and paths *)

(** The words of the specification: the name with everything from its
    last dot onward removed, the whole name when it has no dot. *)
Fixpoint before_last_dot (s : string) : string :=
  match s with
  | EmptyString => EmptyString
  | String c r =>
      if is_dot c && negb (has_dot r) then EmptyString
      else String c (before_last_dot r)
  end.

(** The name of the output in the words of the specification *)
Definition spec_outputFilename (filename : string) : string :=
  before_last_dot filename +:+ ".webp".

(** A name as [filepath.Base] returns it: no slash in it, or the root. *)
Definition base_name (f : string) : bool :=
  negb (has_slash f) || String.eqb f "/".

(** The extension read from the left: the suffix that starts at the last
    dot, nothing when there is no dot. *)
Fixpoint ext_l (l : list ascii) : list ascii :=
  match l with
  | [] => []
  | c :: r =>
      match ext_l r with
      | [] => if is_dot c then c :: r else []
      | e => e
      end
  end.

(** An element that [Clean] keeps as it is *)
Definition plain (e : string) : Prop :=
  e <> "" /\ e <> "." /\ has_slash e = false.

(** The shape of a cleaned path: plain elements, and [..] only at the
    start of a relative path. *)
Fixpoint cleaned (r : bool) (st : list string) : Prop :=
  match st with
  | [] => True
  | e :: rest =>
      plain e /\ cleaned r rest /\
      (e = ".." -> r = false /\ match rest with [] => True | e' :: _ => e' = ".." end)
  end.

(** ** Runs of the handler *)

(** An entry of the journal *)
Definition Ev (c : call) (e : option string) : event := mkEvent c e.

(** The six ways out of [convertToWebP] once the temporary directory
    exists, each with the calls that lead to it and the journal entries
    they leave. *)
Inductive staged_run (v : variant) (w : World) (r : Request)
    (file : string) (hdr : FileHeader) (tempDir : string)
    (c : Context) (st : State) : list event -> Context -> State -> Prop :=
| staged_save_failed msg st1 :
    Create w (Join [tempDir; Filename hdr]) st = (Err msg, st1) ->
    staged_run v w r file hdr tempDir c st
      [Ev (CallCreate (Join [tempDir; Filename hdr])) (Some msg)]
      (JSON StatusInternalServerError (H1 "error" "Failed to save uploaded file") c) st1
| staged_copy_failed inputFile st1 msg st2 :
    Create w (Join [tempDir; Filename hdr]) st = (Ok inputFile, st1) ->
    Copy w inputFile file st1 = (Err msg, st2) ->
    staged_run v w r file hdr tempDir c st
      [Ev (CallCreate (Join [tempDir; Filename hdr])) None;
       Ev (CallCopy inputFile) (Some msg)]
      (JSON StatusInternalServerError (H1 "error" "Failed to copy uploaded file") c) st2
| staged_unresolved inputFile st1 u st2 msg st3 pevs :
    Create w (Join [tempDir; Filename hdr]) st = (Ok inputFile, st1) ->
    Copy w inputFile file st1 = (Ok u, st2) ->
    encoderPath v w st2 = (Err msg, st3) ->
    journal st3 = journal st2 ++ pevs ->
    staged_run v w r file hdr tempDir c st
      ([Ev (CallCreate (Join [tempDir; Filename hdr])) None;
        Ev (CallCopy inputFile) None] ++ pevs)
      (JSON StatusInternalServerError (H1 "error" msg) c) st3
| staged_encoder_failed inputFile st1 u st2 cwebpPath st3 pevs output e st4 :
    Create w (Join [tempDir; Filename hdr]) st = (Ok inputFile, st1) ->
    Copy w inputFile file st1 = (Ok u, st2) ->
    encoderPath v w st2 = (Ok cwebpPath, st3) ->
    journal st3 = journal st2 ++ pevs ->
    CombinedOutput w
      [cwebpPath; "-q"; qualityArg v r; Join [tempDir; Filename hdr]; "-o";
       Join [tempDir; outputFilename (Filename hdr)]] st3 = (output, Some e, st4) ->
    staged_run v w r file hdr tempDir c st
      ([Ev (CallCreate (Join [tempDir; Filename hdr])) None;
        Ev (CallCopy inputFile) None] ++ pevs ++
       [Ev (CallCommand
              [cwebpPath; "-q"; qualityArg v r; Join [tempDir; Filename hdr]; "-o";
               Join [tempDir; outputFilename (Filename hdr)]] output) (Some e)])
      (JSON StatusInternalServerError
         (<["details" := output]> (H1 "error" "Failed to convert image")) c) st4
| staged_unreadable inputFile st1 u st2 cwebpPath st3 pevs output st4 msg st5 :
    Create w (Join [tempDir; Filename hdr]) st = (Ok inputFile, st1) ->
    Copy w inputFile file st1 = (Ok u, st2) ->
    encoderPath v w st2 = (Ok cwebpPath, st3) ->
    journal st3 = journal st2 ++ pevs ->
    CombinedOutput w
      [cwebpPath; "-q"; qualityArg v r; Join [tempDir; Filename hdr]; "-o";
       Join [tempDir; outputFilename (Filename hdr)]] st3 = (output, None, st4) ->
    ReadFile w (Join [tempDir; outputFilename (Filename hdr)]) st4 = (Err msg, st5) ->
    staged_run v w r file hdr tempDir c st
      ([Ev (CallCreate (Join [tempDir; Filename hdr])) None;
        Ev (CallCopy inputFile) None] ++ pevs ++
       [Ev (CallCommand
              [cwebpPath; "-q"; qualityArg v r; Join [tempDir; Filename hdr]; "-o";
               Join [tempDir; outputFilename (Filename hdr)]] output) None;
        Ev (CallReadFile (Join [tempDir; outputFilename (Filename hdr)])) (Some msg)])
      (JSON StatusInternalServerError (H1 "error" "Failed to read converted file") c) st5
| staged_converted inputFile st1 u st2 cwebpPath st3 pevs output st4 webpData st5 :
    Create w (Join [tempDir; Filename hdr]) st = (Ok inputFile, st1) ->
    Copy w inputFile file st1 = (Ok u, st2) ->
    encoderPath v w st2 = (Ok cwebpPath, st3) ->
    journal st3 = journal st2 ++ pevs ->
    CombinedOutput w
      [cwebpPath; "-q"; qualityArg v r; Join [tempDir; Filename hdr]; "-o";
       Join [tempDir; outputFilename (Filename hdr)]] st3 = (output, None, st4) ->
    ReadFile w (Join [tempDir; outputFilename (Filename hdr)]) st4 = (Ok webpData, st5) ->
    staged_run v w r file hdr tempDir c st
      ([Ev (CallCreate (Join [tempDir; Filename hdr])) None;
        Ev (CallCopy inputFile) None] ++ pevs ++
       [Ev (CallCommand
              [cwebpPath; "-q"; qualityArg v r; Join [tempDir; Filename hdr]; "-o";
               Join [tempDir; outputFilename (Filename hdr)]] output) None;
        Ev (CallReadFile (Join [tempDir; outputFilename (Filename hdr)])) None])
      (Data StatusOK "image/webp" webpData
         (Header "Content-Disposition"
            ("attachment; filename=" +:+ outputFilename (Filename hdr)) c)) st5.

(** The ways out of [convertToWebP]: before the temporary directory
    exists, or through [staged_run] and the deferred [os.RemoveAll]. *)
Inductive convert_run (v : variant) (w : World) (r : Request)
    (c : Context) (st : State) : list event -> Context -> State -> Prop :=
| run_input_missing msg st0 :
    FormFile w r "image" st = (Err msg, st0) ->
    convert_run v w r c st
      [Ev (CallFormFile "image") (Some msg)]
      (JSON StatusBadRequest (H1 "error" "No image file provided") c) st0
| run_tempdir_failed file hdr st0 msg st1 :
    FormFile w r "image" st = (Ok (file, hdr), st0) ->
    MkdirTemp w "" "webp-convert-" st0 = (Err msg, st1) ->
    convert_run v w r c st
      [Ev (CallFormFile "image") None; Ev (CallMkdirTemp "") (Some msg)]
      (JSON StatusInternalServerError (H1 "error" "Failed to create temp directory") c) st1
| run_staged file hdr st0 tempDir st1 evs c' st' :
    FormFile w r "image" st = (Ok (file, hdr), st0) ->
    MkdirTemp w "" "webp-convert-" st0 = (Ok tempDir, st1) ->
    staged_run v w r file hdr tempDir c st1 evs c' st' ->
    convert_run v w r c st
      ([Ev (CallFormFile "image") None; Ev (CallMkdirTemp tempDir) None] ++ evs ++
       [Ev (CallRemoveAll tempDir) None])
      c' (RemoveAll tempDir st').

(** A request for the conversion endpoint *)
Definition to_convert (r : Request) : Prop :=
  Method r = "POST" /\ URLPath r = "/convert".

(** ** Sample worlds and requests *)

(** An encoder that writes its output where [-o] says and exits with 0
    when it is started with the six arguments of the handler. *)
Definition sample_encoder (argv : list string) (fs : gmap path node)
  : gmap path node * string * option string :=
  match argv with
  | [_; _; q; _; _; o] => (<[key_of o := File ("RIFF" +:+ q)]> fs, "Saving file", None)
  | _ => (fs, "usage", Some "exit status 1")
  end.

(** An encoder that cannot decode its input *)
Definition failing_encoder (argv : list string) (fs : gmap path node)
  : gmap path node * string * option string :=
  (fs, "Could not decode the input", Some "exit status 255").

(** A world without faults: [/srv/app] is the working directory and 7
    the random number drawn for the temporary directory. *)
Definition sample_world (env : gmap string string)
    (enc : list string -> gmap path node -> gmap path node * string * option string)
  : World :=
  mkWorld env (Ok "/srv/app") [7%N] false false None false false enc.

(** A disk with [/tmp] and an empty journal *)
Definition sample_state : State := mkState {[ (true, ["tmp"]) := Dir ]} [].

(** An upload of five bytes under the field [image] *)
Definition upload (name : string) (query : list (string * string)) : Request :=
  mkRequest "POST" "/convert" query (Some [mkPart "image" name "bytes"]).



(** An encoder that fails with one byte of output, [0xFF], which is not
    UTF-8 *)
Definition garbling_encoder (argv : list string) (fs : gmap path node)
  : gmap path node * string * option string :=
  (fs, String "255"%char "", Some "exit status 1").

(** [GET /health] *)
Definition health_request : Request := mkRequest "GET" "/health" [] None.

(** The outcome of a request that is answered *)
Definition answer (v : variant) (w : World) (r : Request) (st : State) : Context * State :=
  default (fresh, st) (serve v w r st).

(** The entries a request has added to the journal *)
Definition entries (v : variant) (w : World) (r : Request) (st : State) : list event :=
  drop (length (journal st)) (journal (answer v w r st).2).

(** ** The conditions of the claims *)


(** The bytes of the files that the parser stores *)
Fixpoint files_size (parts : list Part) : Z :=
  match parts with
  | [] => 0
  | p :: rest =>
      if String.eqb (field p) "" || negb (is_file p) then files_size rest
      else Z.of_nat (String.length (content p)) + files_size rest
  end.

(** The files of the form are of 32 MiB at most, taken together. *)
Definition fits_in_memory (r : Request) : Prop :=
  match Form r with
  | None => True
  | Some parts => files_size parts <= defaultMaxMemory
  end.

(** The name of a temporary file of the multipart parser *)
Definition multipart_temp (w : World) (name : string) : Prop :=
  exists n : N, name = joinPath (TempDir w) "multipart-" +:+ pretty n.

(** A decimal integer between 0 and 100 *)
Definition in_0_100 (q : string) : Prop :=
  exists n : N, (n <= 100)%N /\ q = pretty n.

(** The path used when [LIBWEBP_PATH] is not set, where there is one *)
Definition unset_default (v : variant) : option string :=
  match v with
  | main_go_a => Some "cwebp"
  | main_go_b => Some "/app/libwebp/bin/cwebp"
  | part_000 => None
  | part_001 => Some "cwebp"
  end.

(** An object with an ["error"] field and at most a ["details"] field
    besides it *)
Definition error_object (obj : gmap string string) : Prop :=
  is_Some (obj !! "error")
  /\ forall k, is_Some (obj !! k) -> k = "error" \/ k = "details".

(** The text of the ["error"] field for each call that can fail before
    or after the encoder *)
Definition static_message (c : call) : option string :=
  match c with
  | CallFormFile _ => Some "No image file provided"
  | CallMkdirTemp _ => Some "Failed to create temp directory"
  | CallCreate _ => Some "Failed to save uploaded file"
  | CallCopy _ => Some "Failed to copy uploaded file"
  | CallReadFile _ => Some "Failed to read converted file"
  | CallGetwd | CallCommand _ _ | CallRemoveAll _ => None
  end.

(** What the specification asks of the encoder: when it exits with 0 it
    has written a file that is not empty where [-o] says. *)
Definition encoder_contract (w : World) : Prop :=
  forall argv fs fs' out o,
    run w argv fs = (fs', out, None) -> argv !! 5%nat = Some o ->
    exists data, fs' !! key_of o = Some (File data) /\ data <> "".


(** ** The conditions of the further properties *)

(** A disk as a filesystem keeps it: every node is named by a cleaned
    path and lies in a directory. *)
Definition wf_disk (fs : gmap path node) : Prop :=
  forall k n, fs !! k = Some n -> cleaned k.1 k.2 /\ is_dir fs (parent k) = true.

(** An encoder that changes nothing outside the directory of the path
    it is given after [-o]. *)
Definition encoder_confined (w : World) : Prop :=
  forall argv fs fs' out e o k,
    run w argv fs = (fs', out, e) -> argv !! 5%nat = Some o ->
    ~ under (parent (key_of o)) k -> fs' !! k = fs !! k.

(** A world in which the working directory cannot be determined, with a
    relative override for the encoder *)
Definition lost_world : World :=
  mkWorld {[ "LIBWEBP_PATH" := "libwebp" ]} (Err "getwd: no such file or directory")
    [7%N] false false None false false sample_encoder.

(** * Properties *)

(** ** Names *)

Section Chars.

Lemma chars_of_chars l : chars (of_chars l) = l.
Proof. apply list_ascii_of_string_of_list_ascii. Qed.

Lemma of_chars_chars s : of_chars (chars s) = s.
Proof. apply string_of_list_ascii_of_string. Qed.

Lemma chars_length s : length (chars s) = String.length s.
Proof. induction s as [|c s IH]; simpl; [done | by rewrite IH]. Qed.

Lemma slice_to_chars s n : slice_to s n = of_chars (take n (chars s)).
Proof.
  unfold slice_to. revert n.
  induction s as [|c s IH]; intros [|n]; simpl; try done.
  by rewrite IH.
Qed.

Lemma has_slash_chars s : has_slash s = existsb is_slash (chars s).
Proof. induction s as [|c s IH]; simpl; [done | by rewrite IH]. Qed.

Lemma has_dot_chars s : has_dot s = existsb is_dot (chars s).
Proof. induction s as [|c s IH]; simpl; [done | by rewrite IH]. Qed.

Lemma ext_l_snoc l c :
  ext_l (l ++ [c]) =
  if is_dot c then [c]
  else match ext_l l with [] => [] | e => e ++ [c] end.
Proof.
  induction l as [|a l IH]; simpl.
  - by destruct (is_dot c).
  - rewrite IH. destruct (is_dot c) eqn:Hc; [done |].
    destruct (ext_l l) as [|x e]; simpl; [| done].
    by destruct (is_dot a).
Qed.

Lemma ext_scan_rev l suf :
  existsb is_slash l = false ->
  ext_scan (rev l) suf = match ext_l l with [] => [] | e => e ++ suf end.
Proof.
  revert suf. induction l as [|c l IH] using rev_ind; intros suf Hs; [done |].
  rewrite existsb_app in Hs. apply orb_false_iff in Hs as [Hl Hc].
  simpl in Hc. rewrite orb_false_r in Hc.
  rewrite rev_app_distr, ext_l_snoc. simpl. rewrite Hc.
  destruct (is_dot c); [done |].
  rewrite IH by done.
  destruct (ext_l l) as [|x e]; [done |].
  by rewrite <- app_assoc.
Qed.

Lemma ext_l_nil_iff l : ext_l l = [] <-> existsb is_dot l = false.
Proof.
  induction l as [|c l IH]; simpl; [done |].
  destruct (ext_l l) as [|x e] eqn:E.
  - destruct (is_dot c); simpl; [split; discriminate | tauto].
  - split; [discriminate |]. intros H. apply orb_false_iff in H as [_ H].
    apply IH in H. discriminate.
Qed.

Lemma before_last_dot_ext s :
  chars s = chars (before_last_dot s) ++ ext_l (chars s).
Proof.
  induction s as [|c s IH]; [done |].
  cbn [before_last_dot chars list_ascii_of_string ext_l].
  fold (chars s). rewrite has_dot_chars.
  destruct (ext_l (chars s)) as [|x e] eqn:E.
  - assert (existsb is_dot (chars s) = false) as -> by by apply ext_l_nil_iff.
    destruct (is_dot c); simpl; [done |].
    fold (chars (before_last_dot s)). rewrite IH at 1. by rewrite app_nil_r.
  - assert (existsb is_dot (chars s) = true) as ->.
    { destruct (existsb is_dot (chars s)) eqn:D; [done |].
      apply ext_l_nil_iff in D. congruence. }
    rewrite andb_false_r. simpl. fold (chars (before_last_dot s)).
    by rewrite IH at 1.
Qed.

End Chars.

(** [filepath.Ext] of a name without a slash is the suffix that starts at
    its last dot. *)
Lemma Ext_no_slash s : has_slash s = false -> chars (Ext s) = ext_l (chars s).
Proof.
  intros H. unfold Ext. rewrite chars_of_chars, ext_scan_rev.
  - destruct (ext_l (chars s)); [done | by rewrite app_nil_r].
  - by rewrite <- has_slash_chars.
Qed.

Lemma filenameWithoutExt_no_slash s :
  has_slash s = false -> filenameWithoutExt s = before_last_dot s.
Proof.
  intros H. unfold filenameWithoutExt.
  rewrite slice_to_chars, <- !chars_length, (Ext_no_slash s H).
  rewrite (before_last_dot_ext s) at 1 3.
  rewrite length_app, Nat.add_sub, take_app_length.
  apply of_chars_chars.
Qed.

Lemma filenameWithoutExt_base_name f :
  base_name f = true -> filenameWithoutExt f = before_last_dot f.
Proof.
  unfold base_name. intros H. apply orb_true_iff in H as [H|H].
  - apply filenameWithoutExt_no_slash. by apply negb_true_iff.
  - apply String.eqb_eq in H as ->. reflexivity.
Qed.

Example photo_JPG : outputFilename "photo.JPG" = "photo.webp".
Proof. reflexivity. Qed.

Example archive_tar_gz : outputFilename "archive.tar.gz" = "archive.tar.webp".
Proof. reflexivity. Qed.

Example noext : outputFilename "noext" = "noext.webp".
Proof. reflexivity. Qed.

(** On a name with a slash after its last dot nothing is removed: the
    extension is that of the final element only. *)
Example dotted_directory : outputFilename "a.b/c" = "a.b/c.webp".
Proof. reflexivity. Qed.

Lemma take_to_slash_no_slash rs acc :
  existsb is_slash acc = false -> existsb is_slash (take_to_slash rs acc) = false.
Proof.
  revert acc. induction rs as [|c rs IH]; intros acc H; simpl; [done |].
  destruct (is_slash c) eqn:Hc; [done |].
  apply IH. simpl. by rewrite Hc.
Qed.

Lemma Base_base_name s : base_name (Base s) = true.
Proof.
  unfold Base. destruct (String.eqb s ""); [done |].
  pose proof (take_to_slash_no_slash (drop_trailing_slashes (rev (chars s))) [] eq_refl) as H.
  destruct (take_to_slash _ _) as [|a b]; [done |].
  unfold base_name. by rewrite has_slash_chars, chars_of_chars, H.
Qed.

Lemma FileName_base_name p : base_name (FileName p) = true.
Proof.
  unfold FileName. destruct (String.eqb (sent_name p) ""); [done |].
  apply Base_base_name.
Qed.

Lemma FormFile_pure_base_name r key file hdr :
  FormFile_pure r key = Ok (file, hdr) -> base_name (Filename hdr) = true.
Proof.
  unfold FormFile_pure. intros H.
  destruct (Form r) as [parts|]; [| done].
  destruct (List.find _ parts) as [p|]; [| done].
  inversion H; subst. apply FileName_base_name.
Qed.

(** A file that [FormFile] hands over is the first file of the field. *)
Lemma FormFile_Ok w r key st x st0 :
  FormFile w r key st = (Ok x, st0) -> FormFile_pure r key = Ok x.
Proof.
  unfold FormFile. destruct (ParseMultipartForm _ _ _ _) as [[parts|e] fs];
    intros H; by inversion H.
Qed.

Lemma FormFile_base_name w r key st file hdr st0 :
  FormFile w r key st = (Ok (file, hdr), st0) -> base_name (Filename hdr) = true.
Proof. intros H. eapply FormFile_pure_base_name, FormFile_Ok, H. Qed.

(** ** Paths *)

Section Paths.

Lemma split_slash_cons s : exists h t, split_slash s = h :: t.
Proof.
  induction s as [|c s [h [t IH]]]; simpl; [by eauto |].
  destruct (is_slash c); [by eauto |]. rewrite IH. by eauto.
Qed.

Lemma split_slash_app x y :
  split_slash (x +:+ String slash y) = split_slash x ++ split_slash y.
Proof.
  induction x as [|c x IH]; simpl; [done |].
  destruct (is_slash c); [by rewrite IH |].
  rewrite IH. destruct (split_slash_cons x) as [h [t ->]]. done.
Qed.

Lemma split_slash_plain x : has_slash x = false -> split_slash x = [x].
Proof.
  induction x as [|c x IH]; simpl; [done |].
  intros H. apply orb_false_iff in H as [-> H]. by rewrite IH.
Qed.

Lemma split_slash_no_slash s : Forall (fun e => has_slash e = false) (split_slash s).
Proof.
  induction s as [|c s IH]; simpl; [by repeat constructor |].
  destruct (is_slash c) eqn:Hc; [by constructor |].
  destruct (split_slash s) as [|h t]; [by repeat constructor; simpl; rewrite Hc |].
  inversion IH; subst. constructor; [| done]. simpl. by rewrite Hc.
Qed.

Lemma split_join l :
  l <> [] -> Forall (fun e => has_slash e = false) l -> split_slash (join_slash l) = l.
Proof.
  induction l as [|x l IH]; [done |]. intros _ H. inversion H; subst.
  destruct l as [|y l]; [by apply split_slash_plain |].
  change (join_slash (x :: y :: l)) with (x +:+ String slash (join_slash (y :: l))).
  rewrite split_slash_app, split_slash_plain, IH; done.
Qed.

Lemma rooted_app x y : x <> "" -> rooted (x +:+ y) = rooted x.
Proof. by destruct x. Qed.

Lemma clean_step_plain r st e :
  plain e -> e <> ".." -> clean_step r st e = e :: st.
Proof.
  intros (H1 & H2 & _) H3. unfold clean_step.
  apply String.eqb_neq in H1, H2, H3. by rewrite H1, H2, H3.
Qed.

Lemma clean_step_cleaned r st e :
  has_slash e = false -> cleaned r st -> cleaned r (clean_step r st e).
Proof.
  intros He Hst. unfold clean_step.
  destruct (String.eqb e "") eqn:E1; [done |].
  destruct (String.eqb e ".") eqn:E2; [done |]. simpl.
  apply String.eqb_neq in E1, E2.
  destruct (String.eqb e "..") eqn:E3.
  - apply String.eqb_eq in E3 as ->.
    destruct st as [|top rest].
    + destruct r; simpl; [done |]. repeat split; done.
    + destruct (String.eqb top "..") eqn:E4.
      * apply String.eqb_eq in E4 as ->. simpl in Hst.
        destruct Hst as (Hp & Hrest & Hdd). destruct (Hdd eq_refl) as [-> Hr].
        simpl. repeat split; done.
      * simpl in Hst. tauto.
  - apply String.eqb_neq in E3. simpl. repeat split; done.
Qed.

Lemma clean_elems_cleaned r st es :
  Forall (fun e => has_slash e = false) es -> cleaned r st ->
  cleaned r (clean_elems r st es).
Proof.
  unfold clean_elems. revert st.
  induction es as [|e es IH]; intros st H Hst; simpl; [done |].
  inversion H; subst. apply IH; [done |]. by apply clean_step_cleaned.
Qed.

Lemma key_of_cleaned s : cleaned (key_of s).1 (key_of s).2.
Proof. simpl. apply clean_elems_cleaned; [apply split_slash_no_slash | done]. Qed.

Lemma clean_elems_app r st es fs :
  clean_elems r st (es ++ fs) = clean_elems r (clean_elems r st es) fs.
Proof. apply fold_left_app. Qed.

(** Reading the elements of a cleaned path again gives the same path. *)
Lemma clean_elems_rev r st :
  cleaned r st -> clean_elems r [] (rev st) = st.
Proof.
  induction st as [|e st IH]; [done |].
  intros (Hp & Hst & Hdd). simpl. rewrite clean_elems_app, IH by done.
  simpl. destruct (decide (e = "..")) as [->|Hne].
  - destruct (Hdd eq_refl) as [-> Htop]. unfold clean_step. simpl.
    destruct st as [|top rest]; [done |]. by rewrite Htop.
  - by apply clean_step_plain.
Qed.

Lemma cleaned_no_slash r st : cleaned r st -> Forall (fun e => has_slash e = false) st.
Proof.
  induction st as [|e st IH]; [by constructor |].
  intros ((_ & _ & He) & Hst & _). constructor; [done | by apply IH].
Qed.

Lemma rooted_join e l : plain e -> rooted (join_slash (e :: l)) = false.
Proof.
  intros (H1 & _ & H3). destruct e as [|a e]; [done |].
  simpl in H3. apply orb_false_iff in H3 as [Ha _].
  destruct l; simpl; done.
Qed.

Lemma cleaned_last r st e : cleaned r (st ++ [e]) -> plain e.
Proof.
  induction st as [|x st IH]; simpl; [tauto |].
  intros (_ & H & _). by apply IH.
Qed.

Lemma key_of_render r st : cleaned r st -> key_of (render (r, st)) = (r, st).
Proof.
  intros H. pose proof (cleaned_no_slash r st H) as Hns.
  unfold render. destruct r.
  - unfold key_of. simpl rooted. cbn [split_slash is_slash]. 
    replace (is_slash slash) with true by done.
    f_equal.
    destruct st as [|e st]; [done |].
    rewrite split_join.
    + simpl. change (clean_elems true [] (rev (e :: st)) = e :: st).
      by apply clean_elems_rev.
    + simpl. by destruct (rev st).
    + by apply Forall_rev.
  - destruct st as [|e st]; [done |].
    unfold key_of.
    assert (rooted (join_slash (rev (e :: st))) = false) as ->.
    { destruct (rev (e :: st)) as [|x l] eqn:E.
      - simpl in E. by destruct (rev st).
      - apply rooted_join. apply (cleaned_last false (rev l)).
        assert (e :: st = rev l ++ [x]) as <-; [| done].
        by rewrite <- (rev_involutive (e :: st)), E. }
    f_equal. rewrite split_join.
    + by apply clean_elems_rev.
    + simpl. by destruct (rev st).
    + by apply Forall_rev.
Qed.

(** Cleaning a path does not change the node it names. *)
Lemma key_of_Clean s : key_of (Clean s) = key_of s.
Proof.
  unfold Clean. destruct (key_of s) as [r st] eqn:E.
  apply key_of_render. pose proof (key_of_cleaned s) as H. by rewrite E in H.
Qed.

(** The node named by [filepath.Join(d, e)]: the elements of [e] read
    from the node named by [d]. *)
Lemma key_of_Join2 d e :
  d <> "" ->
  key_of (Join [d; e]) = ((key_of d).1, clean_elems (key_of d).1 (key_of d).2 (split_slash e)).
Proof.
  intros Hd. unfold Join.
  apply String.eqb_neq in Hd as Hd'. rewrite Hd'.
  rewrite key_of_Clean.
  change (join_slash [d; e]) with (d +:+ String slash e).
  unfold key_of. rewrite rooted_app, split_slash_app, clean_elems_app; done.
Qed.

End Paths.

Lemma key_of_Join_plain d e :
  d <> "" -> plain e -> e <> ".." ->
  key_of (Join [d; e]) = ((key_of d).1, e :: (key_of d).2).
Proof.
  intros Hd He Hdd. rewrite key_of_Join2 by done.
  destruct He as (H1 & H2 & H3). rewrite split_slash_plain by done.
  simpl. by rewrite clean_step_plain.
Qed.

(** Where [filepath.Join(d, f)] leads for a name [f] that comes out of
    [filepath.Base]: nowhere ([d] itself), one level up, or to the entry
    [f] of [d]. *)
Lemma key_of_Join_base_name d f :
  d <> "" -> base_name f = true ->
  key_of (Join [d; f]) = key_of d
  \/ (f = ".." /\ key_of (Join [d; f]) = ((key_of d).1, clean_step (key_of d).1 (key_of d).2 ".."))
  \/ (plain f /\ f <> ".." /\ key_of (Join [d; f]) = ((key_of d).1, f :: (key_of d).2)).
Proof.
  intros Hd Hf. unfold base_name in Hf. apply orb_true_iff in Hf as [Hf|Hf].
  - apply negb_true_iff in Hf.
    destruct (decide (f = "")) as [->|H1].
    { left. rewrite key_of_Join2 by done. reflexivity. }
    destruct (decide (f = ".")) as [->|H2].
    { left. rewrite key_of_Join2 by done. reflexivity. }
    destruct (decide (f = "..")) as [->|H3].
    { right; left. split; [done |]. by rewrite key_of_Join2. }
    right; right. repeat split; try done. by apply key_of_Join_plain.
  - apply String.eqb_eq in Hf as ->. left.
    rewrite key_of_Join2 by done. reflexivity.
Qed.

Lemma has_slash_app a b : has_slash (a +:+ b) = has_slash a || has_slash b.
Proof. induction a as [|c a IH]; simpl; [done |]. by rewrite IH, orb_assoc. Qed.

Lemma before_last_dot_no_slash f :
  has_slash f = false -> has_slash (before_last_dot f) = false.
Proof.
  induction f as [|c f IH]; simpl; [done |].
  intros H. apply orb_false_iff in H as [Hc H].
  destruct (is_dot c && negb (has_dot f)); simpl; [done |].
  by rewrite Hc, IH.
Qed.

Lemma string_length_app a b :
  String.length (a +:+ b) = (String.length a + String.length b)%nat.
Proof. induction a as [|c a IH]; simpl; [done | by rewrite IH]. Qed.

(** The name of the output is an ordinary entry name. *)
Lemma outputFilename_plain f :
  has_slash f = false -> plain (outputFilename f) /\ outputFilename f <> "..".
Proof.
  intros H. unfold outputFilename.
  rewrite filenameWithoutExt_no_slash by done.
  assert (forall s, (String.length s < 5)%nat -> before_last_dot f +:+ ".webp" <> s) as Hlen.
  { intros s Hs E. rewrite <- E, string_length_app in Hs. simpl in Hs. lia. }
  repeat split.
  - apply Hlen. simpl. lia.
  - apply Hlen. simpl. lia.
  - by rewrite has_slash_app, before_last_dot_no_slash.
  - apply Hlen. simpl. lia.
Qed.

(** ** System calls *)

Section Calls.

Lemma under_refl k : under k k.
Proof. split; [done | by exists []]. Qed.

Lemma under_entry k e : under k (k.1, e :: k.2).
Proof. split; [done | by exists [e]]. Qed.

Lemma RemoveAll_gone name st k :
  under (key_of name) k -> disk (RemoveAll name st) !! k = None.
Proof.
  intros H. simpl. apply map_lookup_filter_None. right.
  intros x _ Hout. by apply Hout.
Qed.

Lemma RemoveAll_kept name st k :
  ~ under (key_of name) k -> disk (RemoveAll name st) !! k = disk st !! k.
Proof.
  intros H. simpl. destruct (disk st !! k) as [x|] eqn:E.
  - by apply map_lookup_filter_Some.
  - apply map_lookup_filter_None. by left.
Qed.

Lemma RemoveAll_journal name st :
  journal (RemoveAll name st) = journal st ++ [mkEvent (CallRemoveAll name) None].
Proof. done. Qed.

Lemma MkdirTemp_try_Ok w prefix rs fs name fs' :
  MkdirTemp_try w prefix rs fs = Ok (name, fs') ->
  present fs (key_of name) = false
  /\ is_dir fs (parent (key_of name)) = true
  /\ fs' = <[key_of name := Dir]> fs.
Proof.
  induction rs as [|r rs IH]; simpl; [done |].
  unfold Mkdir.
  destruct (present fs (key_of (prefix +:+ pretty r))) eqn:Hp; [by apply IH |].
  destruct (is_dir fs (parent (key_of (prefix +:+ pretty r)))) eqn:Hd; simpl; [| done].
  destruct (mkdir_fault w); [done |].
  intros H. inversion H; subst. done.
Qed.

(** What a successful [os.MkdirTemp] has done *)
Lemma MkdirTemp_Ok w dir prefix st name st1 :
  MkdirTemp w dir prefix st = (Ok name, st1) ->
  present (disk st) (key_of name) = false
  /\ is_dir (disk st) (parent (key_of name)) = true
  /\ disk st1 = <[key_of name := Dir]> (disk st)
  /\ journal st1 = journal st ++ [mkEvent (CallMkdirTemp name) None].
Proof.
  unfold MkdirTemp. intros H.
  destruct (MkdirTemp_try _ _ _ _) as [[n fs']|e] eqn:E; [| done].
  inversion H; subst. apply MkdirTemp_try_Ok in E as (H1 & H2 & H3).
  by subst.
Qed.

Lemma MkdirTemp_Err w dir prefix st msg st1 :
  MkdirTemp w dir prefix st = (Err msg, st1) ->
  disk st1 = disk st
  /\ journal st1 = journal st ++ [mkEvent (CallMkdirTemp "") (Some msg)].
Proof.
  unfold MkdirTemp. intros H.
  destruct (MkdirTemp_try _ _ _ _) as [[n fs']|e] eqn:E; [done |].
  by inversion H; subst.
Qed.

Lemma not_present_shape fs k :
  present fs k = false ->
  fs !! k = None /\ exists top rest, k.2 = top :: rest /\ top <> "..".
Proof.
  unfold present, implicit_dir. intros H. apply orb_false_iff in H as [Hi Hl].
  split; [by destruct (fs !! k) |].
  destruct k.2 as [|top rest]; [done |].
  exists top, rest. split; [done |]. by apply String.eqb_neq.
Qed.

Lemma Create_Ok w name st k st1 :
  Create w name st = (Ok k, st1) ->
  k = key_of name
  /\ is_dir (disk st) k = false
  /\ disk st1 = <[k := File ""]> (disk st)
  /\ journal st1 = journal st ++ [mkEvent (CallCreate name) None].
Proof.
  unfold Create, Create_check. intros H.
  destruct (is_dir (disk st) (key_of name)) eqn:E1; [done |].
  destruct (negb _); [done |]. destruct (create_fault w); [done |].
  by inversion H; subst.
Qed.

Lemma Create_Err w name st msg st1 :
  Create w name st = (Err msg, st1) ->
  disk st1 = disk st
  /\ journal st1 = journal st ++ [mkEvent (CallCreate name) (Some msg)].
Proof.
  unfold Create. intros H.
  destruct (Create_check _ _ _); by inversion H; subst.
Qed.

Lemma Copy_journal w dst data st res st1 :
  Copy w dst data st = (res, st1) ->
  journal st1 = journal st ++ [mkEvent (CallCopy dst) (error_of res)].
Proof.
  unfold Copy. intros H. destruct (copy_fault w); by inversion H; subst.
Qed.

Lemma ReadFile_inv w name st res st1 :
  ReadFile w name st = (res, st1) ->
  res = ReadFile_pure w (key_of name) (disk st)
  /\ disk st1 = disk st
  /\ journal st1 = journal st ++ [mkEvent (CallReadFile name) (error_of res)].
Proof. unfold ReadFile. intros H. by inversion H; subst. Qed.

Lemma CombinedOutput_journal w argv st out err st1 :
  CombinedOutput w argv st = (out, err, st1) ->
  journal st1 = journal st ++ [mkEvent (CallCommand argv out) err].
Proof.
  unfold CombinedOutput. intros H.
  destruct (run w argv (disk st)) as [[fs' o] e]. by inversion H; subst.
Qed.

Lemma FormFile_journal w r key st res st0 :
  FormFile w r key st = (res, st0) ->
  journal st0 = journal st ++ [mkEvent (CallFormFile key) (error_of res)].
Proof.
  unfold FormFile. destruct (ParseMultipartForm _ _ _ _) as [form fs].
  intros H. by inversion H; subst.
Qed.

Lemma CreateTemp_try_Ok w prefix rs fs name fs' :
  CreateTemp_try w prefix rs fs = Ok (name, fs') ->
  (exists n : N, name = prefix +:+ pretty n)
  /\ present fs (key_of name) = false
  /\ is_dir fs (parent (key_of name)) = true
  /\ fs' = <[key_of name := File ""]> fs.
Proof.
  induction rs as [|r rs IH]; simpl; [done |].
  unfold OpenFile_excl.
  destruct (present fs (key_of (prefix +:+ pretty r))) eqn:Hp; [by apply IH |].
  destruct (is_dir fs (parent (key_of (prefix +:+ pretty r)))) eqn:Hd; simpl; [| done].
  destruct (spill_fault w); [done |].
  intros H. inversion H; subst. split; [by exists r | done].
Qed.

(** What the parser has done to the disk: nothing, or one new file in a
    directory that was there. *)
Lemma ReadForm_disk w maxMemory parts fs res fs' :
  ReadForm w maxMemory parts fs = (res, fs') ->
  fs' = fs
  \/ exists name,
       multipart_temp w name
       /\ present fs (key_of name) = false
       /\ is_dir fs (parent (key_of name)) = true
       /\ spilled maxMemory parts <> ""
       /\ fs' = <[key_of name := File (spilled maxMemory parts)]> fs.
Proof.
  unfold ReadForm, CreateTemp.
  destruct (String.eqb _ "") eqn:Hs; [intros H; inversion H; by left |].
  apply String.eqb_neq in Hs.
  destruct (CreateTemp_try _ _ _ _) as [[name fs1]|e] eqn:E;
    intros H; inversion H; subst; [| by left].
  apply CreateTemp_try_Ok in E as (Hn & Hp & Hd & ->).
  right. exists name. by rewrite insert_insert_eq.
Qed.

(** What [FormFile] has done to the disk: nothing, or one new file of
    the parser in a directory that was there. *)
Lemma FormFile_disk w r key st res st0 :
  FormFile w r key st = (res, st0) ->
  disk st0 = disk st
  \/ exists name data,
       multipart_temp w name
       /\ present (disk st) (key_of name) = false
       /\ is_dir (disk st) (parent (key_of name)) = true
       /\ Form r = Some data
       /\ spilled defaultMaxMemory data <> ""
       /\ disk st0 = <[key_of name := File (spilled defaultMaxMemory data)]> (disk st).
Proof.
  unfold FormFile, ParseMultipartForm.
  destruct (Form r) as [parts|]; [| intros H; inversion H; by left].
  destruct (ReadForm _ _ _ _) as [form fs] eqn:E.
  intros H. inversion H; subst. simpl.
  apply ReadForm_disk in E as [-> | (name & ? & ? & ? & ? & ->)]; [by left |].
  right. by exists name, parts.
Qed.

Lemma files_size_nonneg parts : 0 <= files_size parts.
Proof.
  induction parts as [|p parts IH]; simpl; [done |].
  destruct (_ || _); lia.
Qed.

(** Nothing leaves the memory when the files fit in it together. *)
Lemma spilled_fits parts : forall budget,
  files_size parts <= budget -> spilled budget parts = "".
Proof.
  induction parts as [|p parts IH]; intros budget Hb; simpl in *; [done |].
  destruct (_ || _); [by apply IH |].
  pose proof (files_size_nonneg parts).
  destruct (Z.ltb_spec budget (Z.of_nat (String.length (content p)))); [lia |].
  apply IH. lia.
Qed.

Lemma FormFile_fits w r key st res st0 :
  fits_in_memory r -> FormFile w r key st = (res, st0) -> disk st0 = disk st.
Proof.
  intros Hf H. apply FormFile_disk in H as [H | (name & parts & _ & _ & _ & E & Hs & _)];
    [done |].
  unfold fits_in_memory in Hf. rewrite E in Hf. by apply spilled_fits in Hf.
Qed.

End Calls.

(** ** The exit paths of the handler *)

(** The calls made while the encoder is looked for: [os.Getwd] at most,
    and without an error when a path comes out. *)
Lemma encoderPath_inv v w st res st' :
  encoderPath v w st = (res, st') ->
  disk st' = disk st
  /\ exists pevs, journal st' = journal st ++ pevs
     /\ Forall (fun ev => what ev = CallGetwd
                          /\ (forall p, res = Ok p -> failure ev = None)) pevs.
Proof.
  assert (forall unset, getCwebpPath unset w st = (res, st') ->
    disk st' = disk st
    /\ exists pevs, journal st' = journal st ++ pevs
       /\ Forall (fun ev => what ev = CallGetwd
                          /\ (forall p, res = Ok p -> failure ev = None)) pevs) as G.
  { intros unset. unfold getCwebpPath, Getwd.
    destruct (negb _); [| intros H; inversion H; subst; split; [done |];
                          exists []; by rewrite app_nil_r].
    destruct (HasPrefix _ _); [intros H; inversion H; subst; split; [done |];
                          exists []; by rewrite app_nil_r |].
    destruct (cwd w) as [wd|e] eqn:E; intros H; inversion H; subst;
      (split; [done |]); eexists; (split; [reflexivity |]);
      repeat constructor; done. }
  destruct v; simpl; eauto.
  - unfold Getwd. destruct (String.eqb _ _).
    + intros H; inversion H; subst. split; [done |]. exists []. by rewrite app_nil_r.
    + destruct (cwd w) as [wd|e] eqn:E; intros H; inversion H; subst;
        (split; [done |]); eexists; (split; [reflexivity |]);
        repeat constructor; done.
  - intros H; inversion H; subst. split; [done |]. exists []. by rewrite app_nil_r.
Qed.

Lemma convert_staged_run v w r file hdr tempDir c st c' st' :
  convert_staged v w r file hdr tempDir c st = (c', st') ->
  exists evs, staged_run v w r file hdr tempDir c st evs c' st'.
Proof.
  unfold convert_staged. intros H.
  destruct (Create w _ st) as [[inputFile|msg] st1] eqn:E1;
    [| inversion H; subst; eexists; by eapply staged_save_failed].
  destruct (Copy w inputFile file st1) as [[u|msg] st2] eqn:E2;
    [| inversion H; subst; eexists; by eapply staged_copy_failed].
  destruct (encoderPath v w st2) as [[cwebpPath|msg] st3] eqn:E3;
    destruct (encoderPath_inv _ _ _ _ _ E3) as (_ & pevs & Hp & _);
    [| inversion H; subst; eexists; by eapply staged_unresolved].
  destruct (CombinedOutput w _ st3) as [[output [e|]] st4] eqn:E4;
    [inversion H; subst; eexists; by eapply staged_encoder_failed |].
  destruct (ReadFile w _ st4) as [[webpData|msg] st5] eqn:E5;
    inversion H; subst; eexists;
    [by eapply staged_converted | by eapply staged_unreadable].
Qed.

(** Every call of the handler leaves by one of these paths. *)
Lemma convertToWebP_run v w r c st c' st' :
  convertToWebP v w r c st = (c', st') ->
  exists evs, convert_run v w r c st evs c' st'.
Proof.
  unfold convertToWebP.
  destruct (FormFile w r "image" st) as [[[file hdr]|msg] st0] eqn:E0;
    [| intros H; inversion H; subst; eexists; by eapply run_input_missing].
  destruct (MkdirTemp w "" "webp-convert-" st0) as [[tempDir|msg] st1] eqn:E1;
    [| intros H; inversion H; subst; eexists; by eapply run_tempdir_failed].
  destruct (convert_staged v w r file hdr tempDir c st1) as [c1 st2] eqn:E2.
  intros H; inversion H; subst.
  destruct (convert_staged_run _ _ _ _ _ _ _ _ _ _ E2) as [evs R].
  eexists. by eapply run_staged.
Qed.

(** The journal grows by the entries of the path that was taken. *)
Lemma staged_run_journal v w r file hdr tempDir c st evs c' st' :
  staged_run v w r file hdr tempDir c st evs c' st' ->
  journal st' = journal st ++ evs.
Proof.
  intros R. inversion R; subst;
    repeat match goal with
    | H : Create _ _ _ = (Ok _, _) |- _ => apply Create_Ok in H as (-> & _ & _ & ?)
    | H : Create _ _ _ = (Err _, _) |- _ => apply Create_Err in H as (_ & ?)
    | H : Copy _ _ _ _ = _ |- _ => apply Copy_journal in H
    | H : CombinedOutput _ _ _ = _ |- _ => apply CombinedOutput_journal in H
    | H : ReadFile _ _ _ = _ |- _ => apply ReadFile_inv in H as (_ & _ & ?)
    end; simpl in *;
    repeat match goal with H : journal _ = _ |- _ => rewrite H; clear H end;
    by rewrite <- ?app_assoc.
Qed.

Lemma convert_run_journal v w r c st evs c' st' :
  convert_run v w r c st evs c' st' -> journal st' = journal st ++ evs.
Proof.
  intros R. inversion R; subst;
    repeat match goal with
    | H : FormFile _ _ _ _ = _ |- _ => apply FormFile_journal in H
    | H : MkdirTemp _ _ _ _ = (Ok _, _) |- _ => apply MkdirTemp_Ok in H as (_ & _ & _ & ?)
    | H : MkdirTemp _ _ _ _ = (Err _, _) |- _ => apply MkdirTemp_Err in H as (_ & ?)
    | H : staged_run _ _ _ _ _ _ _ _ _ _ _ |- _ => apply staged_run_journal in H
    end; rewrite ?RemoveAll_journal; simpl in *;
    repeat match goal with H : journal _ = _ |- _ => rewrite H; clear H end;
    by rewrite <- ?app_assoc.
Qed.

(** A request for the conversion endpoint is handled by [convertToWebP],
    in every variant. *)
Lemma serve_convert v w r st :
  to_convert r -> serve v w r st = Some (convertToWebP v w r (context0 v w) st).
Proof.
  intros [Hm Hp]. unfold serve, lookup_route. rewrite Hm, Hp.
  by destruct v.
Qed.

Lemma context0_no_content_type v w : header (context0 v w) !! "Content-Type" = None.
Proof. by destruct v. Qed.

Lemma context0_no_disposition v w : header (context0 v w) !! "Content-Disposition" = None.
Proof. by destruct v. Qed.

Lemma serve_run v w r st c' st' :
  to_convert r -> serve v w r st = Some (c', st') ->
  exists evs, convert_run v w r (context0 v w) st evs c' st'
              /\ journal st' = journal st ++ evs.
Proof.
  intros Hr H. rewrite serve_convert in H by done. inversion H as [E].
  destruct (convertToWebP_run _ _ _ _ _ _ _ E) as [evs R].
  exists evs. split; [done |]. by eapply convert_run_journal.
Qed.

(** The entries of a run, found again from the journal. *)
Lemma serve_run_events v w r st c' st' evs :
  to_convert r -> serve v w r st = Some (c', st') ->
  journal st' = journal st ++ evs ->
  convert_run v w r (context0 v w) st evs c' st'.
Proof.
  intros Hr H J. destruct (serve_run _ _ _ _ _ _ Hr H) as (evs' & R & J').
  rewrite J' in J. apply app_inv_head in J. by subst.
Qed.

(** No entry of the search for the encoder is a command, a creation or a
    directory. *)
Lemma Getwd_entries res (pevs : list event) ev :
  Forall (fun ev => what ev = CallGetwd
                    /\ (forall p : string, res = Ok p -> failure ev = None)) pevs ->
  ev ∈ pevs -> what ev = CallGetwd /\ (forall p, res = Ok p -> failure ev = None).
Proof. intros F Hin. rewrite Forall_forall in F. by apply F. Qed.

(** ** The engine *)

(** C10: in each of the four variants [main] sets the engine's
    [MaxMultipartMemory] to [10 << 20], that is 10485760 bytes (10 MiB),
    and the engine that serves requests is the one so configured. *)
Theorem C10_max_multipart_memory (v : variant) (w : World) :
  MaxMultipartMemory (main v w).1 = Z.shiftl 10 20
  /\ Z.shiftl 10 20 = 10485760
  /\ 10485760 = 10 * 1024 * 1024.
Proof. by destruct v. Qed.

(** ** The health check *)

(** C9, as the code has it: in the three variants that register the
    route (both programs of [src/main.go] and [part_001]), [GET /health]
    is answered with status 200 and the object [{"status":"ok"}],
    whatever the world and the disk are, and leaves the state as it was;
    [part_000] registers [POST /convert] only, and the engine answers
    [GET /health] with 404. *)
Theorem C9_health (v : variant) (w : World) (r : Request) (st : State) :
  Method r = "GET" -> URLPath r = "/health" ->
  (v <> part_000 ->
   exists c, serve v w r st = Some (c, st)
             /\ status c = 200
             /\ payload c = JSONBody {[ "status" := "ok" ]}
             /\ forall w' st', serve v w' r st' = Some (c, st'))
  /\ (v = part_000 ->
      exists c, serve v w r st = Some (c, st) /\ status c = 404).
Proof.
  intros Hm Hp. unfold serve, lookup_route, redirected. rewrite Hm, Hp.
  destruct v; (split; [intros Hv | intros Hv]); try done;
    eexists; repeat split; eauto.
Qed.

Lemma C9_health_witness :
  exists c, serve main_go_a (sample_world ∅ failing_encoder) health_request sample_state
            = Some (c, sample_state)
            /\ status c = 200
            /\ payload c = JSONBody {[ "status" := "ok" ]}
            /\ forall w' st', serve main_go_a w' health_request st' = Some (c, st').
Proof.
  apply (C9_health main_go_a (sample_world ∅ failing_encoder) health_request sample_state);
    [ reflexivity | reflexivity | discriminate ].
Defined.

(** C9 as it is written fails: [part_000] registers [POST /convert] only,
    and the engine answers [GET /health] with 404. *)
Lemma C9_health_counterexample :
  ~ (forall (v : variant) (w : World) (st : State),
       exists c, serve v w health_request st = Some (c, st) /\ status c = 200).
Proof.
  intros H.
  destruct (H part_000 (sample_world ∅ sample_encoder) sample_state) as (c & E & S).
  vm_compute in E. inversion E; subst. vm_compute in S. discriminate.
Qed.

(** ** Missing input *)









(** ** The command that is started *)

Ltac entry_cases H :=
  rewrite ?elem_of_app, ?elem_of_cons, ?elem_of_nil in H;
  repeat match type of H with
         | _ \/ _ => destruct H as [H|H]
         | False => destruct H
         end.

Ltac find_entry_go :=
  first [ apply list_elem_of_here
        | apply list_elem_of_further; find_entry_go
        | apply elem_of_app; left; find_entry_go
        | apply elem_of_app; right; find_entry_go ].

Ltac find_entry := cbn [app]; find_entry_go.

(** The only command of a run is the encoder's, started after the
    temporary directory was made, with the six arguments of
    [exec.Command(cwebpPath, "-q", quality, inputPath, "-o", outputPath)]. *)
Lemma run_command v w r c st evs c' st' argv out e :
  convert_run v w r c st evs c' st' ->
  Ev (CallCommand argv out) e ∈ evs ->
  exists file hdr tempDir cwebpPath st2 st3,
    FormFile_pure r "image" = Ok (file, hdr)
    /\ Ev (CallMkdirTemp tempDir) None ∈ evs
    /\ encoderPath v w st2 = (Ok cwebpPath, st3)
    /\ argv = [cwebpPath; "-q"; qualityArg v r; Join [tempDir; Filename hdr]; "-o";
               Join [tempDir; outputFilename (Filename hdr)]].
Proof.
  intros R Hin. inversion R as [ | | file hdr st0 tempDir st1 sevs c1 st1' HF HM HS]; subst.
  - entry_cases Hin; discriminate.
  - entry_cases Hin; discriminate.
  - apply FormFile_Ok in HF. symmetry in HF.
    assert (Ev (CallCommand argv out) e ∈ sevs) as Hs.
    { entry_cases Hin; try discriminate; done. }
    exists file, hdr, tempDir.
    assert (forall pevs res,
              Forall (fun ev => what ev = CallGetwd
                                /\ (forall p : string, res = Ok p -> failure ev = None)) pevs ->
              Ev (CallCommand argv out) e ∈ pevs -> False) as NoCmd.
    { intros pevs res F Hp. by destruct (Getwd_entries _ _ _ F Hp). }
    inversion HS; subst; entry_cases Hs; try discriminate;
      try (match goal with
           | HP : encoderPath _ _ _ = _ |- _ =>
               destruct (encoderPath_inv _ _ _ _ _ HP) as (_ & pevs' & J' & F')
           end;
           match goal with
           | J1 : journal ?a = journal ?b ++ ?p, J2 : journal ?a = journal ?b ++ ?q |- _ =>
               rewrite J1 in J2; apply app_inv_head in J2; subst
           end;
           try (exfalso; by eapply NoCmd)).
    all: match goal with
         | HP : encoderPath _ _ ?s2 = (Ok ?p, ?s3) |- _ => exists p, s2, s3
         end.
    all: inversion Hs; subst; repeat split; try done.
    all: find_entry.
Qed.

(** ** The quality parameter *)

Lemma qualityArg_supplied v r q :
  v <> part_000 -> GetQuery r "quality" = Some q -> qualityArg v r = q.
Proof. intros Hv H. destruct v; try done; unfold qualityArg, DefaultQuery; by rewrite H. Qed.

Lemma qualityArg_omitted v r :
  GetQuery r "quality" = None -> qualityArg v r = "80".
Proof. intros H. destruct v; unfold qualityArg, DefaultQuery; by rewrite ?H. Qed.

(** C2, as the code has it: in the variants that read the parameter
    (both programs of [src/main.go] and [part_001]) a quality supplied
    as an integer string in [0,100] is the value of the encoder's [-q],
    unchanged; when the parameter is omitted the value is ["80"], in
    every variant; [part_000] does not read the parameter and always
    passes ["80"]. *)
Theorem C2_quality (v : variant) (w : World) (r : Request) (st : State)
    (c' : Context) (st' : State) (evs : list event)
    (argv : list string) (out : string) (e : option string) :
  to_convert r ->
  serve v w r st = Some (c', st') ->
  journal st' = journal st ++ evs ->
  Ev (CallCommand argv out) e ∈ evs ->
  argv !! 1%nat = Some "-q"
  /\ (forall q, v <> part_000 -> in_0_100 q -> GetQuery r "quality" = Some q ->
        argv !! 2%nat = Some q)
  /\ (GetQuery r "quality" = None -> argv !! 2%nat = Some "80")
  /\ (v = part_000 -> argv !! 2%nat = Some "80").
Proof.
  intros Hr Hs J Hin.
  pose proof (serve_run_events _ _ _ _ _ _ _ Hr Hs J) as R.
  destruct (run_command _ _ _ _ _ _ _ _ _ _ _ R Hin)
    as (file & hdr & tempDir & p & st2 & st3 & _ & _ & _ & ->).
  repeat split; simpl.
  - intros q Hv _ Hq. by rewrite (qualityArg_supplied v r q).
  - intros Hq. by rewrite qualityArg_omitted.
  - by intros ->.
Qed.

Lemma C2_quality_witness :
  let w := sample_world ∅ sample_encoder in
  let r := upload "photo.JPG" [("quality", "50")] in
  let argv := ["cwebp"; "-q"; "50"; "/tmp/webp-convert-7/photo.JPG"; "-o";
               "/tmp/webp-convert-7/photo.webp"] in
  Ev (CallCommand argv "Saving file") None ∈ entries main_go_a w r sample_state
  /\ argv !! 2%nat = Some "50".
Proof.
  intros w r argv.
  assert (Ev (CallCommand argv "Saving file") None ∈ entries main_go_a w r sample_state) as Hin.
  { vm_compute. do 4 apply list_elem_of_further. apply list_elem_of_here. }
  split; [exact Hin |].
  refine (proj1 (proj2 (C2_quality main_go_a w r sample_state
                   (answer main_go_a w r sample_state).1
                   (answer main_go_a w r sample_state).2
                   (entries main_go_a w r sample_state)
                   argv "Saving file" None _ _ _ Hin)) "50" _ _ _).
  - split; reflexivity.
  - vm_compute. reflexivity.
  - vm_compute. reflexivity.
  - discriminate.
  - exists 50%N. split; [done | reflexivity].
  - reflexivity.
Defined.

(** C2 as it is written fails: [part_000] starts the encoder with
    [-q 80] when the request asks for quality 50. *)
Lemma C2_quality_counterexample :
  ~ (forall (v : variant) (w : World) (r : Request) (st : State) (q : string)
            (argv : list string) (out : string) (e : option string),
       to_convert r -> in_0_100 q -> GetQuery r "quality" = Some q ->
       Ev (CallCommand argv out) e ∈ entries v w r st ->
       argv !! 2%nat = Some q).
Proof.
  intros H.
  pose (w := sample_world {[ "LIBWEBP_PATH" := "libwebp" ]} sample_encoder).
  pose (r := upload "photo.JPG" [("quality", "50")]).
  specialize (H part_000 w r sample_state "50"
                ["/srv/app/libwebp/bin/cwebp"; "-q"; "80"; "/tmp/webp-convert-7/photo.JPG";
                 "-o"; "/tmp/webp-convert-7/photo.webp"] "Saving file" None).
  assert (Some "80" = Some "50") as E; [| discriminate E].
  apply H.
  - split; reflexivity.
  - exists 50%N. split; [done | reflexivity].
  - reflexivity.
  - vm_compute. do 5 apply list_elem_of_further. apply list_elem_of_here.
Qed.

(** ** Where the encoder is *)

(** [getCwebpPath], case by case *)
Lemma getCwebpPath_cases unset w st :
  (HasPrefix (Getenv w "LIBWEBP_PATH") "/" = true ->
     getCwebpPath unset w st = (Ok (Join [Getenv w "LIBWEBP_PATH"; "bin"; "cwebp"]), st))
  /\ (Getenv w "LIBWEBP_PATH" <> "" -> HasPrefix (Getenv w "LIBWEBP_PATH") "/" = false ->
      forall workDir, cwd w = Ok workDir ->
        (getCwebpPath unset w st).1
        = Ok (Join [workDir; Getenv w "LIBWEBP_PATH"; "bin"; "cwebp"]))
  /\ (Getenv w "LIBWEBP_PATH" = "" -> getCwebpPath unset w st = (Ok unset, st)).
Proof.
  unfold getCwebpPath, Getwd.
  destruct (String.eqb (Getenv w "LIBWEBP_PATH") "") eqn:E; simpl.
  - apply String.eqb_eq in E. rewrite E. repeat split; done.
  - apply String.eqb_neq in E. repeat split.
    + by intros ->.
    + intros _ -> workDir ->. done.
    + done.
Qed.

(** What [part_000] does: the override is joined to the working
    directory whatever it starts with, and there is no default. *)
Lemma part_000_encoder_location w st :
  let override := Getenv w "LIBWEBP_PATH" in
  (override <> "" -> forall workDir, cwd w = Ok workDir ->
     (encoderPath part_000 w st).1 = Ok (Join [workDir; override; "bin"; "cwebp"]))
  /\ (override = "" ->
      encoderPath part_000 w st = (Err "LIBWEBP_PATH environment variable not set", st)).
Proof.
  simpl. unfold Getwd. split.
  - intros H workDir Hwd. apply String.eqb_neq in H. by rewrite H, Hwd.
  - by intros ->.
Qed.

(** C3, as the code has it: in the two programs of [src/main.go]
    ([getCwebpPath]) the first case that applies decides.  An override
    that starts with a slash is joined with [bin/cwebp] and the working
    directory is not asked for; any other non-empty override is joined
    to the working directory and then with [bin/cwebp]; without an
    override the path is the fixed default of the program, the bare
    [cwebp] or [/app/libwebp/bin/cwebp].  [part_000] joins every
    non-empty override to the working directory and has no default: the
    request fails when none is set.  [part_001] starts the bare [cwebp]
    whatever the environment says. *)
Theorem C3_encoder_location (v : variant) (w : World) (st : State) :
  let override := Getenv w "LIBWEBP_PATH" in
  (v = main_go_a \/ v = main_go_b ->
   (HasPrefix override "/" = true ->
      encoderPath v w st = (Ok (Join [override; "bin"; "cwebp"]), st))
   /\ (override <> "" -> HasPrefix override "/" = false ->
       forall workDir, cwd w = Ok workDir ->
         (encoderPath v w st).1 = Ok (Join [workDir; override; "bin"; "cwebp"]))
   /\ (override = "" ->
       exists d, unset_default v = Some d /\ encoderPath v w st = (Ok d, st)))
  /\ (v = part_000 ->
      (override <> "" -> forall workDir, cwd w = Ok workDir ->
         (encoderPath v w st).1 = Ok (Join [workDir; override; "bin"; "cwebp"]))
      /\ (override = "" ->
          encoderPath v w st = (Err "LIBWEBP_PATH environment variable not set", st)))
  /\ (v = part_001 -> encoderPath v w st = (Ok "cwebp", st)).
Proof.
  intros override. unfold override. split; [| split].
  - intros [-> | ->]; simpl.
    + destruct (getCwebpPath_cases "cwebp" w st) as (G1 & G2 & G3).
      repeat split; [done | done |]. intros H. eexists. split; [done |]. by apply G3.
    + destruct (getCwebpPath_cases "/app/libwebp/bin/cwebp" w st) as (G1 & G2 & G3).
      repeat split; [done | done |]. intros H. eexists. split; [done |]. by apply G3.
  - intros ->. apply part_000_encoder_location.
  - by intros ->.
Qed.

Lemma C3_encoder_location_witness :
  let w := sample_world {[ "LIBWEBP_PATH" := "/opt/libwebp" ]} sample_encoder in
  HasPrefix (Getenv w "LIBWEBP_PATH") "/" = true
  /\ encoderPath main_go_a w sample_state = (Ok "/opt/libwebp/bin/cwebp", sample_state).
Proof.
  intros w. split; [reflexivity |].
  apply (proj1 (proj1 (C3_encoder_location main_go_a w sample_state) (or_introl eq_refl))).
  reflexivity.
Defined.

(** C3 as it is written fails: [part_000] joins an absolute override to
    the working directory all the same. *)
Lemma C3_encoder_location_counterexample :
  ~ (forall (v : variant) (w : World) (st : State),
       HasPrefix (Getenv w "LIBWEBP_PATH") "/" = true ->
       (encoderPath v w st).1 = Ok (Join [Getenv w "LIBWEBP_PATH"; "bin"; "cwebp"])).
Proof.
  intros H.
  specialize (H part_000 (sample_world {[ "LIBWEBP_PATH" := "/opt/libwebp" ]} sample_encoder)
                sample_state eq_refl).
  vm_compute in H. discriminate H.
Qed.

Example part_000_absolute_override :
  (encoderPath part_000 (sample_world {[ "LIBWEBP_PATH" := "/opt/libwebp" ]} sample_encoder)
     sample_state).1 = Ok "/srv/app/opt/libwebp/bin/cwebp".
Proof. reflexivity. Qed.

(** ** Responses *)

Lemma CombinedOutput_inv w argv st out err st1 :
  CombinedOutput w argv st = (out, err, st1) ->
  run w argv (disk st) = (disk st1, out, err).
Proof.
  unfold CombinedOutput. intros H.
  destruct (run w argv (disk st)) as [[fs' o] e]. by inversion H; subst.
Qed.

Lemma ReadFile_Ok w name st data st1 :
  ReadFile w name st = (Ok data, st1) -> disk st !! key_of name = Some (File data).
Proof.
  intros H. apply ReadFile_inv in H as (H & _ & _). unfold ReadFile_pure in H.
  destruct (disk st !! key_of name) as [[|d]|]; try done.
  destruct (read_fault w); by inversion H.
Qed.

(** What [c.Header] and [c.Data] leave in a context that had no content
    type yet. *)
Lemma Data_attachment c name data :
  header c !! "Content-Type" = None ->
  let c' := Data StatusOK "image/webp" data
              (Header "Content-Disposition" ("attachment; filename=" +:+ name) c) in
  status c' = 200
  /\ header c' !! "Content-Type" = Some "image/webp"
  /\ header c' !! "Content-Disposition" = Some ("attachment; filename=" +:+ name)
  /\ payload c' = BytesBody data.
Proof.
  intros H. simpl. unfold writeContentType.
  rewrite lookup_insert_ne, H by done.
  rewrite lookup_insert_eq, lookup_insert_ne, lookup_insert_eq by done. done.
Qed.

(** A response with status 200 comes from the last exit only: every
    call has succeeded, the encoder has run, and the body is the file
    that the encoder left at the output path. *)
Lemma run_converted v w r c st evs c' st' :
  convert_run v w r c st evs c' st' -> status c' = 200 ->
  exists file hdr tempDir cwebpPath output webpData fs fs',
    FormFile_pure r "image" = Ok (file, hdr)
    /\ c' = Data StatusOK "image/webp" webpData
              (Header "Content-Disposition"
                 ("attachment; filename=" +:+ outputFilename (Filename hdr)) c)
    /\ Ev (CallCommand
             [cwebpPath; "-q"; qualityArg v r; Join [tempDir; Filename hdr]; "-o";
              Join [tempDir; outputFilename (Filename hdr)]] output) None ∈ evs
    /\ run w [cwebpPath; "-q"; qualityArg v r; Join [tempDir; Filename hdr]; "-o";
              Join [tempDir; outputFilename (Filename hdr)]] fs = (fs', output, None)
    /\ fs' !! key_of (Join [tempDir; outputFilename (Filename hdr)]) = Some (File webpData)
    /\ Forall (fun ev => failure ev = None) evs.
Proof.
  intros R Hs.
  inversion R as [ | | file hdr st0 tempDir st1 sevs c1 st1' HF HM HS]; subst;
    [discriminate Hs | discriminate Hs |].
  apply FormFile_Ok in HF. symmetry in HF.
  inversion HS; subst; try discriminate Hs.
  match goal with
  | HC : CombinedOutput _ _ ?s3 = (_, None, ?s4), HR : ReadFile _ _ _ = _,
    HP : encoderPath _ _ _ = _ |- _ =>
      exists file, hdr, tempDir, cwebpPath, output, webpData, (disk s3), (disk s4);
      apply CombinedOutput_inv in HC; apply ReadFile_Ok in HR;
      destruct (encoderPath_inv _ _ _ _ _ HP) as (_ & pevs' & J' & F')
  end.
  match goal with
  | J1 : journal ?a = journal ?b ++ ?p, J2 : journal ?a = journal ?b ++ ?q |- _ =>
      rewrite J1 in J2; apply app_inv_head in J2; subst
  end.
  repeat split; try done.
  - find_entry.
  - repeat (apply Forall_cons; split; [done |]).
    apply Forall_app. split.
    + apply Forall_app. split; [| by repeat constructor].
      eapply Forall_impl; [exact F' |]. intros ev [_ Hev]. by eapply Hev.
    + by repeat constructor.
Qed.

(** ** The name of the output *)

(** C1: the name that [FormFile] hands over for an upload is turned into
    the name of the output by removing everything from its last dot
    onward, if it has a dot, and appending [.webp]; this name is the one
    in the [Content-Disposition] header of a successful response and the
    final element of the path that follows the encoder's [-o]. *)
Theorem C1_output_filename (v : variant) (w : World) (r : Request) (st : State)
    (file : string) (hdr : FileHeader) (c' : Context) (st' : State)
    (evs : list event) :
  to_convert r ->
  FormFile_pure r "image" = Ok (file, hdr) ->
  serve v w r st = Some (c', st') ->
  journal st' = journal st ++ evs ->
  outputFilename (Filename hdr) = spec_outputFilename (Filename hdr)
  /\ (status c' = 200 ->
      header c' !! "Content-Disposition"
      = Some ("attachment; filename=" +:+ spec_outputFilename (Filename hdr)))
  /\ (forall argv out e, Ev (CallCommand argv out) e ∈ evs ->
      exists tempDir,
        Ev (CallMkdirTemp tempDir) None ∈ evs
        /\ argv !! 4%nat = Some "-o"
        /\ argv !! 5%nat = Some (Join [tempDir; spec_outputFilename (Filename hdr)])).
Proof.
  intros Hr HF Hs J.
  pose proof (serve_run_events _ _ _ _ _ _ _ Hr Hs J) as R.
  assert (outputFilename (Filename hdr) = spec_outputFilename (Filename hdr)) as Hname.
  { unfold outputFilename, spec_outputFilename. f_equal.
    apply filenameWithoutExt_base_name.
    by eapply FormFile_pure_base_name. }
  split; [exact Hname |]. split.
  - intros H200.
    destruct (run_converted _ _ _ _ _ _ _ _ R H200)
      as (file' & hdr' & tempDir & p & output & data & fs & fs' & HF' & -> & _).
    rewrite HF in HF'. inversion HF'; subst. rewrite <- Hname.
    apply Data_attachment, context0_no_content_type.
  - intros argv out e Hin.
    destruct (run_command _ _ _ _ _ _ _ _ _ _ _ R Hin)
      as (file' & hdr' & tempDir & p & st2 & st3 & HF' & HM & _ & ->).
    rewrite HF in HF'. inversion HF'; subst. rewrite <- Hname.
    exists tempDir. done.
Qed.

Lemma C1_output_filename_witness :
  let w := sample_world ∅ sample_encoder in
  let r := upload "archive.tar.gz" [] in
  outputFilename "archive.tar.gz" = "archive.tar.webp"
  /\ header (answer main_go_b w r sample_state).1 !! "Content-Disposition"
     = Some "attachment; filename=archive.tar.webp".
Proof.
  intros w r.
  destruct (C1_output_filename main_go_b w r sample_state
              "bytes" (mkFileHeader "archive.tar.gz" 5)
              (answer main_go_b w r sample_state).1
              (answer main_go_b w r sample_state).2
              (entries main_go_b w r sample_state)) as (H1' & H2' & _).
  - split; reflexivity.
  - reflexivity.
  - vm_compute. reflexivity.
  - vm_compute. reflexivity.
  - split; [exact H1' |]. apply H2'. reflexivity.
Defined.

(** ** Failures *)

Lemma error_object_H1 msg : error_object (H1 "error" msg).
Proof.
  unfold H1. split.
  - rewrite lookup_singleton_eq. by eexists.
  - intros k [x Hk]. apply lookup_singleton_Some in Hk as [<- _]. by left.
Qed.

Lemma error_object_details msg out :
  error_object (<["details" := out]> (H1 "error" msg)).
Proof.
  unfold H1. split.
  - rewrite lookup_insert_ne by done. rewrite lookup_singleton_eq. by eexists.
  - intros k [x Hk]. apply lookup_insert_Some in Hk as [[<- _]|[_ Hk]]; [by right |].
    apply lookup_singleton_Some in Hk as [<- _]. by left.
Qed.

Lemma H1_no_details msg : H1 "error" msg !! "details" = None.
Proof. unfold H1. by rewrite lookup_singleton_ne. Qed.

(** Every exit is the successful one or answers with an error object. *)
Lemma run_classified v w r c st evs c' st' :
  convert_run v w r c st evs c' st' ->
  (status c' = 200
   /\ (exists data, payload c' = BytesBody data)
   /\ Forall (fun ev => failure ev = None) evs)
  \/ (exists obj,
        payload c' = JSONBody obj
        /\ error_object obj
        /\ ((status c' = 400 /\ exists msg, evs = [Ev (CallFormFile "image") (Some msg)])
            \/ (status c' = 500 /\ Ev (CallFormFile "image") None ∈ evs))).
Proof.
  intros R.
  inversion R as [ msg st0 HF | file hdr st0 msg st1 HF HM
                 | file hdr st0 tempDir st1 sevs c1 st1' HF HM HS]; subst.
  - right. eexists. split; [reflexivity |]. split; [apply error_object_H1 |].
    left. split; [done | by eexists].
  - right. eexists. split; [reflexivity |]. split; [apply error_object_H1 |].
    right. split; [done | find_entry].
  - inversion HS; subst;
      try (right; eexists; (split; [reflexivity |]);
           (split; [first [apply error_object_H1 | apply error_object_details] |]);
           right; split; [done | find_entry]).
    left.
    destruct (run_converted _ _ _ _ _ _ _ _ R eq_refl)
      as (_ & _ & _ & _ & _ & data & _ & _ & _ & _ & _ & _ & _ & F).
    repeat split; [by eexists | done].
Qed.



Ltac pevs_facts :=
  match goal with
  | HP : encoderPath _ _ _ = _ |- _ =>
      let F := fresh "F" in
      let J := fresh "J" in
      let p := fresh "p" in
      destruct (encoderPath_inv _ _ _ _ _ HP) as (_ & p & J & F);
      match goal with
      | J1 : journal ?a = journal ?b ++ ?q |- _ =>
          tryif constr_eq J1 J then fail
          else (rewrite J1 in J; apply app_inv_head in J; subst p)
      end
  end.

Ltac getwd_entry H :=
  match goal with
  | F : Forall _ ?pevs |- _ =>
      match type of H with
      | _ ∈ pevs => destruct (Getwd_entries _ _ _ F H) as [? ?]
      end
  end.

(** The entries of a run with an encoder that failed, and the answer *)
Lemma run_encoder_failed v w r c st evs c' st' argv out e :
  convert_run v w r c st evs c' st' ->
  Ev (CallCommand argv out) (Some e) ∈ evs ->
  c' = JSON StatusInternalServerError
         (<["details" := out]> (H1 "error" "Failed to convert image")) c.
Proof.
  intros R Hin.
  inversion R as [ msg st0 HF | file hdr st0 msg st1 HF HM
                 | file hdr st0 tempDir st1 sevs c1 st1' HF HM HS]; subst.
  - entry_cases Hin; discriminate.
  - entry_cases Hin; discriminate.
  - inversion HS; subst; try pevs_facts; entry_cases Hin;
      try discriminate; try (getwd_entry Hin; discriminate).
    by inversion Hin; subst.
Qed.

(** The answer to a run in which a call with a fixed message failed *)
Lemma run_static_failure v w r c st evs c' st' cl e m :
  convert_run v w r c st evs c' st' ->
  Ev cl (Some e) ∈ evs -> static_message cl = Some m ->
  exists code, c' = JSON code (H1 "error" m) c.
Proof.
  intros R Hin Hm.
  inversion R as [ msg st0 HF | file hdr st0 msg st1 HF HM
                 | file hdr st0 tempDir st1 sevs c1 st1' HF HM HS]; subst.
  - entry_cases Hin; inversion Hin; subst. inversion Hm; subst. by eexists.
  - entry_cases Hin; inversion Hin; subst. inversion Hm; subst. by eexists.
  - inversion HS; subst; try pevs_facts; entry_cases Hin;
      try (getwd_entry Hin;
           match goal with Hw : what _ = CallGetwd |- _ => simpl in Hw; subst cl end;
           discriminate Hm);
      try discriminate Hin;
      inversion Hin; subst; try discriminate Hm;
      inversion Hm; subst; by eexists.
Qed.

(** A string that is UTF-8 is read back as it is. *)
Lemma coerce_valid l : forall skip,
  json.valid_from skip l = true -> json.coerce skip l = l.
Proof.
  induction l as [|c l IH]; intros skip H; [done |].
  cbn [json.valid_from json.coerce] in *.
  destruct skip as [|k]; [| by rewrite IH].
  destruct (json.rune_size (c :: l)) as [|k]; [done | by rewrite IH].
Qed.

Lemma string_value_valid s :
  json.ValidString s = true -> json.string_value s = s.
Proof.
  unfold json.ValidString, json.string_value. intros H.
  rewrite coerce_valid by done. apply of_chars_chars.
Qed.

Lemma static_message_ascii cl m :
  static_message cl = Some m -> json.string_value m = m.
Proof. destruct cl; intros H; inversion H; reflexivity. Qed.

(** C5, as the code has it: when the encoder exits with an error or
    cannot be started, the answer has status 500 and the handler hands
    the combined output that was captured to [c.JSON] as it is, under
    ["details"]; the client reads it as [encoding/json] has written it,
    that is unchanged when the output is UTF-8, and with U+FFFD in the
    place of every byte that is not.  When the input is missing, the
    temporary directory cannot be made, the upload cannot be saved or
    the output cannot be read, the object has the fixed message of that
    failure in ["error"] and no ["details"]; and whatever call fails, the
    handler answers with an error object. *)
Theorem C5_encoder_failure_details (v : variant) (w : World) (r : Request)
    (st : State) (c' : Context) (st' : State) (evs : list event) :
  to_convert r ->
  serve v w r st = Some (c', st') ->
  journal st' = journal st ++ evs ->
  (forall argv out e, Ev (CallCommand argv out) (Some e) ∈ evs ->
     status c' = 500
     /\ payload c'
        = JSONBody (<["details" := out]> {[ "error" := "Failed to convert image" ]})
     /\ exists obj, received (payload c') = JSONBody obj
                    /\ obj !! "details" = Some (json.string_value out)
                    /\ (json.ValidString out = true -> obj !! "details" = Some out)
                    /\ obj !! "error" = Some "Failed to convert image")
  /\ (forall cl e m, Ev cl (Some e) ∈ evs -> static_message cl = Some m ->
      payload c' = JSONBody {[ "error" := m ]}
      /\ exists obj, received (payload c') = JSONBody obj
                     /\ obj = {[ "error" := m ]}
                     /\ obj !! "details" = None)
  /\ (forall cl e, Ev cl (Some e) ∈ evs ->
      exists obj, received (payload c') = JSONBody obj /\ is_Some (obj !! "error")).
Proof.
  intros Hr Hs J.
  pose proof (serve_run_events _ _ _ _ _ _ _ Hr Hs J) as R.
  split; [| split].
  - intros argv out e Hin.
    rewrite (run_encoder_failed _ _ _ _ _ _ _ _ _ _ _ R Hin).
    cbn [status payload JSON received]. split; [done |]. split; [done |].
    eexists. split; [reflexivity |].
    assert ((json.string_value <$> <["details" := out]> (H1 "error" "Failed to convert image"))
              !! "details" = Some (json.string_value out)) as D.
    { by rewrite lookup_fmap, lookup_insert_eq. }
    split; [exact D |]. split.
    + intros Hv. by rewrite D, string_value_valid.
    + rewrite lookup_fmap, lookup_insert_ne by done.
      unfold H1. by rewrite lookup_singleton_eq.
  - intros cl e m Hin Hm.
    destruct (run_static_failure _ _ _ _ _ _ _ _ _ _ _ R Hin Hm) as [code ->].
    cbn [payload JSON received]. split; [done |].
    eexists. split; [reflexivity |].
    unfold H1. rewrite map_fmap_singleton, (static_message_ascii _ _ Hm).
    split; [done | apply H1_no_details].
  - intros cl e Hin.
    destruct (run_classified _ _ _ _ _ _ _ _ R) as [(_ & _ & F) | (obj & Hp & [Ho _] & _)].
    + rewrite Forall_forall in F. specialize (F _ Hin). discriminate F.
    + rewrite Hp. cbn [received]. eexists. split; [reflexivity |].
      rewrite lookup_fmap. destruct Ho as [x ->]. by eexists.
Qed.

Lemma C5_encoder_failure_details_witness :
  let w := sample_world ∅ failing_encoder in
  let r := upload "photo.JPG" [] in
  status (answer main_go_a w r sample_state).1 = 500
  /\ exists obj, received (payload (answer main_go_a w r sample_state).1) = JSONBody obj
                 /\ obj !! "details" = Some "Could not decode the input"
                 /\ obj !! "error" = Some "Failed to convert image".
Proof.
  intros w r.
  destruct (proj1 (C5_encoder_failure_details main_go_a w r sample_state
                     (answer main_go_a w r sample_state).1
                     (answer main_go_a w r sample_state).2
                     (entries main_go_a w r sample_state)
                     (conj eq_refl eq_refl) eq_refl eq_refl)
              ["cwebp"; "-q"; "80"; "/tmp/webp-convert-7/photo.JPG"; "-o";
               "/tmp/webp-convert-7/photo.webp"]
              "Could not decode the input" "exit status 255"
              (list_elem_of_further _ _ _
                 (list_elem_of_further _ _ _
                    (list_elem_of_further _ _ _
                       (list_elem_of_further _ _ _ (list_elem_of_here _ _))))))
    as (S & _ & obj & Hr & _ & Hd & He).
  split; [exact S |]. exists obj.
  split; [exact Hr |]. split; [exact (Hd eq_refl) | exact He].
Defined.

(** C5 as it is written fails: the output of [garbling_encoder] is the
    byte [0xFF], and the client reads U+FFFD in the ["details"] field. *)
Lemma C5_encoder_failure_details_counterexample :
  ~ (forall (v : variant) (w : World) (r : Request) (st : State)
            (argv : list string) (out e : string),
       to_convert r ->
       Ev (CallCommand argv out) (Some e) ∈ entries v w r st ->
       exists obj, received (payload (answer v w r st).1) = JSONBody obj
                   /\ obj !! "details" = Some out).
Proof.
  intros H.
  destruct (H main_go_a (sample_world ∅ garbling_encoder) (upload "photo.JPG" [])
              sample_state
              ["cwebp"; "-q"; "80"; "/tmp/webp-convert-7/photo.JPG"; "-o";
               "/tmp/webp-convert-7/photo.webp"]
              (String "255"%char "") "exit status 1") as (obj & E & D).
  - split; reflexivity.
  - vm_compute. do 4 apply list_elem_of_further. apply list_elem_of_here.
  - vm_compute in E. inversion E; subst obj. vm_compute in D. discriminate D.
Qed.

(** ** A successful conversion *)

Ltac failed_entry F :=
  exfalso;
  match type of F with
  | Forall _ ?l =>
      let Hx := fresh "Hx" in
      eassert (Ev _ (Some _) ∈ l) as Hx by find_entry;
      rewrite Forall_forall in F; specialize (F _ Hx); discriminate F
  end.

(** A run in which no call has failed and the encoder was started is the
    successful one. *)
Lemma run_all_succeeded v w r c st evs c' st' argv out :
  convert_run v w r c st evs c' st' ->
  Forall (fun ev => failure ev = None) evs ->
  Ev (CallCommand argv out) None ∈ evs ->
  status c' = 200.
Proof.
  intros R F Hin.
  inversion R as [ msg st0 HF | file hdr st0 msg st1 HF HM
                 | file hdr st0 tempDir st1 sevs c1 st1' HF HM HS]; subst.
  - failed_entry F.
  - failed_entry F.
  - inversion HS; subst; try done; try (failed_entry F).
    pevs_facts. entry_cases Hin; try discriminate Hin.
    getwd_entry Hin. discriminate.
Qed.

(** C7: a request in which no call fails and the encoder, started by
    the handler, keeps to its contract is answered with status 200, the
    content type [image/webp], the header
    [Content-Disposition: attachment; filename=<name of the output>] and
    a body that is not empty and is the content of the file the encoder
    left at the path after [-o]. *)
Theorem C7_success_response (v : variant) (w : World) (r : Request) (st : State)
    (c' : Context) (st' : State) (evs : list event) :
  to_convert r ->
  serve v w r st = Some (c', st') ->
  journal st' = journal st ++ evs ->
  Forall (fun ev => failure ev = None) evs ->
  (exists argv out, Ev (CallCommand argv out) None ∈ evs) ->
  encoder_contract w ->
  status c' = 200
  /\ header c' !! "Content-Type" = Some "image/webp"
  /\ exists file hdr argv out o data fs fs',
       FormFile_pure r "image" = Ok (file, hdr)
       /\ header c' !! "Content-Disposition"
          = Some ("attachment; filename=" +:+ outputFilename (Filename hdr))
       /\ Ev (CallCommand argv out) None ∈ evs
       /\ argv !! 5%nat = Some o
       /\ run w argv fs = (fs', out, None)
       /\ fs' !! key_of o = Some (File data)
       /\ payload c' = BytesBody data
       /\ data <> "".
Proof.
  intros Hr Hs J F (argv & out & Hin) Hc.
  pose proof (serve_run_events _ _ _ _ _ _ _ Hr Hs J) as R.
  pose proof (run_all_succeeded _ _ _ _ _ _ _ _ _ _ R F Hin) as H200.
  destruct (run_converted _ _ _ _ _ _ _ _ R H200)
    as (file & hdr & tempDir & p & output & data & fs & fs' & HF & -> & Hcmd & Hrun & Hfile & _).
  destruct (Data_attachment (context0 v w) (outputFilename (Filename hdr)) data
              (context0_no_content_type v w)) as (D1 & D2 & D3 & D4).
  split; [exact D1 |]. split; [exact D2 |].
  exists file, hdr. do 6 eexists.
  split; [exact HF |]. split; [exact D3 |]. split; [exact Hcmd |].
  split; [reflexivity |]. split; [exact Hrun |]. split; [exact Hfile |].
  split; [exact D4 |].
  destruct (Hc _ _ _ _ _ Hrun eq_refl) as (data' & Hd & Hne).
  rewrite Hfile in Hd. by inversion Hd; subst.
Qed.

Lemma sample_encoder_contract env : encoder_contract (sample_world env sample_encoder).
Proof.
  intros argv fs fs' out o Hrun Ho. simpl in Hrun. unfold sample_encoder in Hrun.
  do 7 (destruct argv as [|? argv]; try (inversion Hrun; fail)).
  inversion Hrun; subst. simpl in Ho. inversion Ho; subst.
  eexists. split; [apply lookup_insert_eq | done].
Qed.

Lemma C7_success_response_witness :
  let w := sample_world ∅ sample_encoder in
  let r := upload "photo.JPG" [("quality", "90")] in
  status (answer part_001 w r sample_state).1 = 200
  /\ header (answer part_001 w r sample_state).1 !! "Content-Type" = Some "image/webp".
Proof.
  intros w r.
  destruct (C7_success_response part_001 w r sample_state
              (answer part_001 w r sample_state).1
              (answer part_001 w r sample_state).2
              (entries part_001 w r sample_state)) as (H200 & Hct & _).
  - split; reflexivity.
  - vm_compute. reflexivity.
  - vm_compute. reflexivity.
  - vm_compute. repeat constructor.
  - exists ["cwebp"; "-q"; "90"; "/tmp/webp-convert-7/photo.JPG"; "-o";
            "/tmp/webp-convert-7/photo.webp"], "Saving file".
    vm_compute. do 4 apply list_elem_of_further. apply list_elem_of_here.
  - apply sample_encoder_contract.
  - split; [exact H200 | exact Hct].
Defined.

(** ** The temporary directory *)

Lemma key_of_empty : key_of "" = (false, []).
Proof. reflexivity. Qed.

(** The file of the upload is created as an entry of the temporary
    directory, or not at all: the names that do not lead into the
    directory ([.], [..], the root, the empty name) lead to a directory,
    which cannot be created as a file. *)
Lemma staged_input_key w dir prefix st0 tempDir st1 f k st2 :
  MkdirTemp w dir prefix st0 = (Ok tempDir, st1) ->
  base_name f = true ->
  Create w (Join [tempDir; f]) st1 = (Ok k, st2) ->
  tempDir <> ""
  /\ has_slash f = false
  /\ k = ((key_of tempDir).1, f :: (key_of tempDir).2).
Proof.
  intros HM Hf HC.
  apply MkdirTemp_Ok in HM as (Hnp & Hpar & Hdisk & _).
  apply not_present_shape in Hnp as (Hnone & top & rest & Hshape & Htop).
  assert (tempDir <> "") as Hne.
  { intros ->. rewrite key_of_empty in Hshape. discriminate Hshape. }
  apply Create_Ok in HC as (-> & Hnd & _ & _).
  split; [exact Hne |].
  destruct (key_of_Join_base_name tempDir f Hne Hf) as [E | [(-> & E) | (Hp & Hdd & E)]].
  - exfalso. rewrite E, Hdisk in Hnd. unfold is_dir in Hnd.
    rewrite lookup_insert_eq in Hnd. by rewrite orb_true_r in Hnd.
  - exfalso. rewrite E, Hdisk in Hnd. rewrite Hshape in Hnd.
    unfold clean_step in Hnd. simpl in Hnd.
    apply String.eqb_neq in Htop. rewrite Htop in Hnd.
    unfold parent in Hpar. rewrite Hshape in Hpar. simpl in Hpar.
    unfold is_dir in Hnd, Hpar. rewrite lookup_insert_ne in Hnd.
    + by rewrite Hpar in Hnd.
    + intros Heq. apply (f_equal (fun p => length p.2)) in Heq.
      rewrite Hshape in Heq. simpl in Heq. lia.
  - split; [apply Hp | exact E].
Qed.

(** The paths a run works on lie in the temporary directory. *)
Lemma staged_run_paths v w r file hdr dir prefix st0 tempDir c st evs c' st' :
  MkdirTemp w dir prefix st0 = (Ok tempDir, st) ->
  base_name (Filename hdr) = true ->
  staged_run v w r file hdr tempDir c st evs c' st' ->
  (forall name, Ev (CallCreate name) None ∈ evs -> under (key_of tempDir) (key_of name))
  /\ (forall dst e, Ev (CallCopy dst) e ∈ evs -> under (key_of tempDir) dst)
  /\ (forall argv out e, Ev (CallCommand argv out) e ∈ evs ->
      exists i o, argv !! 3%nat = Some i /\ argv !! 5%nat = Some o
                  /\ under (key_of tempDir) (key_of i)
                  /\ under (key_of tempDir) (key_of o)).
Proof.
  intros HM Hf HS.
  inversion HS; subst;
    try match goal with
        | HC : Create _ _ _ = (Ok ?k, _) |- _ =>
            pose proof (Create_Ok _ _ _ _ _ HC) as (Hk & _);
            destruct (staged_input_key _ _ _ _ _ _ _ _ _ HM Hf HC) as (Hne & Hns & Hkey)
        end;
    try pevs_facts;
    ((split; [| split]);
     [intros name Hin | intros dst e' Hin | intros argv out' e' Hin]).
  all: entry_cases Hin; try discriminate Hin;
    try (getwd_entry Hin; discriminate).
  all: match type of Hin with
       | Ev (CallCreate ?a) _ = Ev (CallCreate ?b) _ =>
           assert (a = b) as -> by (unfold Ev in Hin; congruence)
       | Ev (CallCopy ?a) _ = Ev (CallCopy ?b) _ =>
           assert (a = b) as -> by (unfold Ev in Hin; congruence)
       | Ev (CallCommand ?a _) _ = Ev (CallCommand ?b _) _ =>
           assert (a = b) as -> by (unfold Ev in Hin; congruence)
       end.
  all: try (rewrite Hkey; apply under_entry).
  all: try (rewrite <- Hk, Hkey; apply under_entry).
  all: do 2 eexists; (split; [reflexivity |]); (split; [reflexivity |]); split.
  all: try (rewrite <- Hk, Hkey; apply under_entry).
  all: destruct (outputFilename_plain _ Hns) as [Hp Hdd];
    rewrite key_of_Join_plain by done; apply under_entry.
Qed.

(** C6: once [os.MkdirTemp] has made the temporary directory of a
    request, the last call of the handler, on every way out, is
    [os.RemoveAll] on that directory: when the request completes neither
    the directory nor anything in it is on disk.  The file of the upload
    is created and written in that directory, and the input and output
    paths handed to the encoder lie in it, so both files are among what
    is removed. *)
Theorem C6_temporary_files_removed (v : variant) (w : World) (r : Request)
    (st : State) (c' : Context) (st' : State) (evs : list event)
    (tempDir : string) :
  to_convert r ->
  serve v w r st = Some (c', st') ->
  journal st' = journal st ++ evs ->
  Ev (CallMkdirTemp tempDir) None ∈ evs ->
  last evs = Some (Ev (CallRemoveAll tempDir) None)
  /\ disk st' !! key_of tempDir = None
  /\ (forall k, under (key_of tempDir) k -> disk st' !! k = None)
  /\ (forall name, Ev (CallCreate name) None ∈ evs -> under (key_of tempDir) (key_of name))
  /\ (forall dst e, Ev (CallCopy dst) e ∈ evs -> under (key_of tempDir) dst)
  /\ (forall argv out e, Ev (CallCommand argv out) e ∈ evs ->
      exists i o, argv !! 3%nat = Some i /\ argv !! 5%nat = Some o
                  /\ under (key_of tempDir) (key_of i)
                  /\ under (key_of tempDir) (key_of o)).
Proof.
  intros Hr Hs J Hin.
  pose proof (serve_run_events _ _ _ _ _ _ _ Hr Hs J) as R.
  inversion R as [ msg st0 HF | file hdr st0 msg st1 HF HM
                 | file hdr st0 tempDir0 st1 sevs c1 st1' HF HM HS]; subst.
  - entry_cases Hin; discriminate Hin.
  - entry_cases Hin; discriminate Hin.
  - pose proof (FormFile_base_name _ _ _ _ _ _ _ HF) as Hf.
    destruct (staged_run_paths _ _ _ _ _ _ _ _ _ _ _ _ _ _ HM Hf HS) as (P1 & P2 & P3).
    assert (tempDir = tempDir0) as ->.
    { entry_cases Hin; try discriminate Hin; [by inversion Hin | ].
      exfalso. clear -HS Hin.
      inversion HS; subst; try pevs_facts; entry_cases Hin; try discriminate Hin;
        getwd_entry Hin; discriminate. }
    split; [| split; [| split; [| split; [| split]]]].
    + rewrite (app_assoc _ sevs). apply last_snoc.
    + apply RemoveAll_gone, under_refl.
    + intros k Hk. by apply RemoveAll_gone.
    + intros name Hc. apply P1. entry_cases Hc; try discriminate Hc. exact Hc.
    + intros dst e Hc. apply (P2 dst e). entry_cases Hc; try discriminate Hc. exact Hc.
    + intros argv out e Hc. apply (P3 argv out e).
      entry_cases Hc; try discriminate Hc. exact Hc.
Qed.

Lemma C6_temporary_files_removed_witness :
  let w := sample_world ∅ failing_encoder in
  let r := upload "photo.JPG" [] in
  last (entries main_go_b w r sample_state)
  = Some (Ev (CallRemoveAll "/tmp/webp-convert-7") None)
  /\ disk (answer main_go_b w r sample_state).2
       !! (true, ["photo.JPG"; "webp-convert-7"; "tmp"]) = None.
Proof.
  intros w r.
  destruct (C6_temporary_files_removed main_go_b w r sample_state
              (answer main_go_b w r sample_state).1
              (answer main_go_b w r sample_state).2
              (entries main_go_b w r sample_state)
              "/tmp/webp-convert-7") as (Hlast & _ & Hgone & _).
  - split; reflexivity.
  - vm_compute. reflexivity.
  - vm_compute. reflexivity.
  - vm_compute. apply list_elem_of_further. apply list_elem_of_here.
  - split; [exact Hlast |]. apply Hgone.
    split; [reflexivity |]. by exists ["photo.JPG"].
Defined.

(** * Further properties of the code *)

(** ** More on names *)

Lemma of_chars_app a b : of_chars (a ++ b) = of_chars a +:+ of_chars b.
Proof. induction a as [|c a IH]; simpl; [done | by rewrite IH]. Qed.

Lemma string_app_inv_head a b c : a +:+ b = a +:+ c -> b = c.
Proof. induction a as [|x a IH]; simpl; [done |]. intros H. inversion H. by apply IH. Qed.

(** The loop of [filepath.Ext] returns a part of what it has read. *)
Lemma ext_scan_suffix rest suf :
  exists pre, rev rest ++ suf = pre ++ ext_scan rest suf.
Proof.
  revert suf. induction rest as [|c rest IH]; intros suf; simpl.
  - exists suf. by rewrite app_nil_r.
  - destruct (is_slash c).
    + eexists. by rewrite app_nil_r.
    + destruct (is_dot c).
      * exists (rev rest). by rewrite <- app_assoc.
      * destruct (IH (c :: suf)) as [pre E]. exists pre.
        by rewrite <- app_assoc.
Qed.

Lemma Ext_suffix s : exists pre, chars s = pre ++ chars (Ext s).
Proof.
  destruct (ext_scan_suffix (rev (chars s)) []) as [pre E].
  rewrite rev_involutive, app_nil_r in E.
  exists pre. unfold Ext. by rewrite chars_of_chars.
Qed.

(** X1: [filenameWithoutExt] and [filepath.Ext] cut the name in two, for
    every string: the extension is never longer than the name, so the
    slice [filename[:len(filename)-len(ext)]] is always in range, and
    the name is the stem followed by the extension. *)
Theorem filename_is_stem_and_ext (filename : string) :
  (String.length (Ext filename) <= String.length filename)%nat
  /\ filename = filenameWithoutExt filename +:+ Ext filename.
Proof.
  destruct (Ext_suffix filename) as [pre E].
  assert (String.length filename
          = (length pre + String.length (Ext filename))%nat) as L.
  { rewrite <- (chars_length filename), E, length_app. by rewrite chars_length. }
  split; [lia |].
  unfold filenameWithoutExt. rewrite slice_to_chars, L, Nat.add_sub.
  rewrite E, take_app_length.
  rewrite <- (of_chars_chars filename) at 1. rewrite E, of_chars_app.
  by rewrite of_chars_chars.
Qed.

Lemma ext_scan_shape rest suf :
  existsb is_dot suf = false -> existsb is_slash suf = false ->
  ext_scan rest suf = []
  \/ exists e, ext_scan rest suf = dot :: e
               /\ existsb is_dot e = false /\ existsb is_slash e = false.
Proof.
  revert suf. induction rest as [|c rest IH]; intros suf Hd Hs; simpl; [by left |].
  destruct (is_slash c) eqn:Es; [by left |].
  destruct (is_dot c) eqn:Ed.
  - right. exists suf. apply Ascii.eqb_eq in Ed. by subst.
  - apply IH; simpl; by rewrite ?Ed, ?Es.
Qed.

(** X2: what [filepath.Ext] finds, and [filenameWithoutExt] removes, is
    nothing or one dot followed by characters that are neither dots nor
    slashes: one extension at most is removed, and no directory part of
    the name is touched. *)
Theorem Ext_is_one_extension (filename : string) :
  Ext filename = ""
  \/ exists e, Ext filename = String dot e
               /\ has_dot e = false /\ has_slash e = false.
Proof.
  unfold Ext.
  destruct (ext_scan_shape (rev (chars filename)) [] eq_refl eq_refl)
    as [-> | (e & -> & Hd & Hs)]; [by left |].
  right. exists (of_chars e). split; [done |].
  by rewrite has_dot_chars, has_slash_chars, chars_of_chars.
Qed.

(** X4: a name that is nothing but an extension, a dot followed by
    characters without a dot or a slash such as [.gitignore], loses all
    of it: the output is called [.webp]. *)
Theorem dotfile_becomes_webp (g : string) :
  has_dot g = false -> has_slash g = false ->
  outputFilename (String dot g) = ".webp".
Proof.
  intros Hd Hs. unfold outputFilename.
  rewrite filenameWithoutExt_no_slash by (simpl; by rewrite Hs).
  simpl. by rewrite Hd.
Qed.

Lemma dotfile_becomes_webp_witness : outputFilename ".gitignore" = ".webp".
Proof. apply (dotfile_becomes_webp "gitignore"); reflexivity. Defined.

(** The name of the output is the name of the upload exactly when the
    upload is called [<something>.webp]. *)
Lemma outputFilename_fixpoint f : outputFilename f = f <-> Ext f = ".webp".
Proof.
  destruct (filename_is_stem_and_ext f) as [_ E]. unfold outputFilename. split.
  - intros H. rewrite E in H at 2. apply string_app_inv_head in H. by symmetry.
  - intros H. rewrite E at 2. by rewrite H.
Qed.

(** ** More on the command *)

(** A run that has started a command has taken every step before it:
    the calls, in the order of the source, and what the command was
    given. *)
Lemma run_command_steps v w r c st evs c' st' argv out e :
  convert_run v w r c st evs c' st' ->
  Ev (CallCommand argv out) e ∈ evs ->
  exists file hdr st0 tempDir st1 inputFile st2 u st3 cwebpPath st4 pevs tl,
    FormFile w r "image" st = (Ok (file, hdr), st0)
    /\ MkdirTemp w "" "webp-convert-" st0 = (Ok tempDir, st1)
    /\ Create w (Join [tempDir; Filename hdr]) st1 = (Ok inputFile, st2)
    /\ Copy w inputFile file st2 = (Ok u, st3)
    /\ encoderPath v w st3 = (Ok cwebpPath, st4)
    /\ argv = [cwebpPath; "-q"; qualityArg v r; Join [tempDir; Filename hdr]; "-o";
               Join [tempDir; outputFilename (Filename hdr)]]
    /\ evs = [Ev (CallFormFile "image") None; Ev (CallMkdirTemp tempDir) None;
              Ev (CallCreate (Join [tempDir; Filename hdr])) None;
              Ev (CallCopy inputFile) None]
             ++ pevs ++ Ev (CallCommand argv out) e :: tl
    /\ Forall (fun ev => ev = Ev CallGetwd None) pevs
    /\ Forall (fun ev => forall a o, what ev <> CallCommand a o) tl
    /\ exists st5, CombinedOutput w argv st4 = (out, e, st5).
Proof.
  intros R Hin.
  inversion R as [ msg st0 HF | file hdr st0 msg st1 HF HM
                 | file hdr st0 tempDir st1 sevs c1 st1' HF HM HS]; subst.
  - entry_cases Hin; discriminate.
  - entry_cases Hin; discriminate.
  - assert (Ev (CallCommand argv out) e ∈ sevs) as Hs.
    { entry_cases Hin; try discriminate; done. }
    clear Hin.
    assert (forall pevs p,
              Forall (fun ev => what ev = CallGetwd
                                /\ (forall q : string, Ok p = Ok q -> failure ev = None)) pevs ->
              Forall (fun ev => ev = Ev CallGetwd None) pevs) as Hget.
    { intros pevs p F. eapply Forall_impl; [exact F |].
      intros [wh fl] [Hw Hf]. simpl in *. subst wh. by rewrite (Hf p eq_refl). }
    inversion HS; subst; try pevs_facts; entry_cases Hs;
      try discriminate Hs; try (getwd_entry Hs; discriminate).
    all: match type of Hs with
         | Ev (CallCommand ?a ?o) ?x = Ev (CallCommand ?b ?o') ?y =>
             assert (a = b) as -> by (unfold Ev in Hs; congruence);
             assert (o = o') as -> by (unfold Ev in Hs; congruence);
             assert (x = y) as -> by (unfold Ev in Hs; congruence)
         end.
    all: match goal with
         | HS' : staged_run _ _ _ _ _ _ _ _ (_ ++ ?p ++ _ :: ?t) _ _ |- _ =>
             do 11 eexists; exists p, (t ++ [Ev (CallRemoveAll tempDir) None])
         end.
    all: repeat (split; [eassumption || reflexivity |]).
    all: split; [cbn [app]; by rewrite <- app_assoc |].
    all: split; [by eapply Hget |].
    all: split; [repeat constructor; by intros a o |].
    all: eexists; eassumption.
Qed.

Lemma serve_command_steps v w r st c' st' evs argv out e :
  to_convert r -> serve v w r st = Some (c', st') ->
  journal st' = journal st ++ evs ->
  Ev (CallCommand argv out) e ∈ evs ->
  exists file hdr st0 tempDir st1 inputFile st2 u st3 cwebpPath st4 pevs tl,
    FormFile w r "image" st = (Ok (file, hdr), st0)
    /\ MkdirTemp w "" "webp-convert-" st0 = (Ok tempDir, st1)
    /\ Create w (Join [tempDir; Filename hdr]) st1 = (Ok inputFile, st2)
    /\ Copy w inputFile file st2 = (Ok u, st3)
    /\ encoderPath v w st3 = (Ok cwebpPath, st4)
    /\ argv = [cwebpPath; "-q"; qualityArg v r; Join [tempDir; Filename hdr]; "-o";
               Join [tempDir; outputFilename (Filename hdr)]]
    /\ evs = [Ev (CallFormFile "image") None; Ev (CallMkdirTemp tempDir) None;
              Ev (CallCreate (Join [tempDir; Filename hdr])) None;
              Ev (CallCopy inputFile) None]
             ++ pevs ++ Ev (CallCommand argv out) e :: tl
    /\ Forall (fun ev => ev = Ev CallGetwd None) pevs
    /\ Forall (fun ev => forall a o, what ev <> CallCommand a o) tl
    /\ exists st5, CombinedOutput w argv st4 = (out, e, st5).
Proof.
  intros Hr Hs J Hin. eapply run_command_steps; [| exact Hin].
  by eapply serve_run_events.
Qed.

(** X3: the encoder is started at most once for a request, and only
    after the upload was received, the temporary directory made, the
    file created and the bytes copied, each without an error: the
    journal of such a run begins with these four calls in this order,
    goes on with [os.Getwd] at most, and holds no second command. *)
Theorem encoder_started_once_after_staging (v : variant) (w : World) (r : Request)
    (st : State) (c' : Context) (st' : State) (evs : list event)
    (argv : list string) (out : string) (e : option string) :
  to_convert r ->
  serve v w r st = Some (c', st') ->
  journal st' = journal st ++ evs ->
  Ev (CallCommand argv out) e ∈ evs ->
  exists tempDir name inputFile pevs tl,
    evs = [Ev (CallFormFile "image") None; Ev (CallMkdirTemp tempDir) None;
           Ev (CallCreate name) None; Ev (CallCopy inputFile) None]
          ++ pevs ++ Ev (CallCommand argv out) e :: tl
    /\ Forall (fun ev => ev = Ev CallGetwd None) pevs
    /\ Forall (fun ev => forall a o, what ev <> CallCommand a o) tl.
Proof.
  intros Hr Hs J Hin.
  destruct (serve_command_steps _ _ _ _ _ _ _ _ _ _ Hr Hs J Hin)
    as (file & hdr & st0 & tempDir & st1 & inputFile & st2 & u & st3 & p & st4
        & pevs & tl & _ & _ & _ & _ & _ & _ & E & F1 & F2 & _).
  by exists tempDir, (Join [tempDir; Filename hdr]), inputFile, pevs, tl.
Qed.

Lemma encoder_started_once_after_staging_witness :
  let w := sample_world ∅ failing_encoder in
  let r := upload "photo.JPG" [] in
  exists tempDir name inputFile pevs tl,
    entries part_001 w r sample_state
    = [Ev (CallFormFile "image") None; Ev (CallMkdirTemp tempDir) None;
       Ev (CallCreate name) None; Ev (CallCopy inputFile) None]
      ++ pevs
      ++ Ev (CallCommand ["cwebp"; "-q"; "80"; "/tmp/webp-convert-7/photo.JPG"; "-o";
                          "/tmp/webp-convert-7/photo.webp"]
              "Could not decode the input") (Some "exit status 255") :: tl
    /\ Forall (fun ev => ev = Ev CallGetwd None) pevs
    /\ Forall (fun ev => forall a o, what ev <> CallCommand a o) tl.
Proof.
  intros w r.
  apply (encoder_started_once_after_staging part_001 w r sample_state
           (answer part_001 w r sample_state).1 (answer part_001 w r sample_state).2).
  - split; reflexivity.
  - vm_compute. reflexivity.
  - vm_compute. reflexivity.
  - vm_compute. do 4 apply list_elem_of_further. apply list_elem_of_here.
Defined.

(** X5: an upload whose name already ends in [.webp] is converted in
    place: the path after [-o] is the path of the input exactly when the
    extension of the name is [.webp]. *)
Theorem webp_upload_converted_in_place (v : variant) (w : World) (r : Request)
    (st : State) (c' : Context) (st' : State) (evs : list event)
    (file : string) (hdr : FileHeader)
    (argv : list string) (out : string) (e : option string) :
  to_convert r ->
  FormFile_pure r "image" = Ok (file, hdr) ->
  serve v w r st = Some (c', st') ->
  journal st' = journal st ++ evs ->
  Ev (CallCommand argv out) e ∈ evs ->
  (argv !! 3%nat = argv !! 5%nat <-> Ext (Filename hdr) = ".webp").
Proof.
  intros Hr HF Hs J Hin.
  destruct (serve_command_steps _ _ _ _ _ _ _ _ _ _ Hr Hs J Hin)
    as (file' & hdr' & st0 & tempDir & st1 & inputFile & st2 & u & st3 & p & st4
        & pevs & tl & HF' & HM & HC & _ & _ & -> & _).
  pose proof (FormFile_base_name _ _ _ _ _ _ _ HF') as Hb.
  apply FormFile_Ok in HF'. symmetry in HF'. rewrite HF in HF'.
  inversion HF'; subst file' hdr'.
  destruct (staged_input_key _ _ _ _ _ _ _ _ _ HM Hb HC) as (Hne & Hns & Hk).
  apply Create_Ok in HC as (Hk' & _). rewrite Hk' in Hk.
  destruct (outputFilename_plain _ Hns) as [Hp Hdd].
  rewrite <- outputFilename_fixpoint.
  change (Some (Join [tempDir; Filename hdr])
          = Some (Join [tempDir; outputFilename (Filename hdr)])
          <-> outputFilename (Filename hdr) = Filename hdr).
  split.
  - intros H.
    assert (key_of (Join [tempDir; Filename hdr])
            = key_of (Join [tempDir; outputFilename (Filename hdr)])) as H'
      by congruence.
    rewrite Hk, key_of_Join_plain in H' by done. congruence.
  - by intros ->.
Qed.

Lemma webp_upload_converted_in_place_witness :
  let w := sample_world ∅ sample_encoder in
  let r := upload "logo.webp" [] in
  let argv := ["cwebp"; "-q"; "80"; "/tmp/webp-convert-7/logo.webp"; "-o";
               "/tmp/webp-convert-7/logo.webp"] in
  Ev (CallCommand argv "Saving file") None ∈ entries part_001 w r sample_state
  /\ argv !! 3%nat = argv !! 5%nat.
Proof.
  intros w r argv.
  assert (Ev (CallCommand argv "Saving file") None ∈ entries part_001 w r sample_state) as Hin.
  { vm_compute. do 4 apply list_elem_of_further. apply list_elem_of_here. }
  split; [exact Hin |].
  apply (webp_upload_converted_in_place part_001 w r sample_state
           (answer part_001 w r sample_state).1 (answer part_001 w r sample_state).2
           (entries part_001 w r sample_state) "bytes" (mkFileHeader "logo.webp" 5)
           argv "Saving file" None).
  - split; reflexivity.
  - reflexivity.
  - vm_compute. reflexivity.
  - vm_compute. reflexivity.
  - exact Hin.
  - reflexivity.
Defined.

Lemma GetQuery_first r key pre q rest :
  Query r = pre ++ (key, q) :: rest ->
  Forall (fun kv : string * string => kv.1 <> key) pre ->
  GetQuery r key = Some q.
Proof.
  intros HQ F. unfold GetQuery. rewrite HQ. clear HQ.
  induction pre as [|kv pre IH]; simpl.
  - by rewrite String.eqb_refl.
  - inversion F as [|? ? Hne F']; subst. apply String.eqb_neq in Hne. rewrite Hne.
    by apply IH.
Qed.

(** X6: the quality is not checked anywhere.  In the variants that read
    it, whatever the first [quality] of the query string holds, a number
    out of range, a word or nothing at all, goes to the encoder after
    [-q] as it is; the default ["80"] is used only when the query has no
    [quality] at all. *)
Theorem quality_passed_unchecked (v : variant) (w : World) (r : Request)
    (st : State) (c' : Context) (st' : State) (evs : list event)
    (argv : list string) (out : string) (e : option string)
    (pre rest : list (string * string)) (q : string) :
  v <> part_000 ->
  to_convert r ->
  serve v w r st = Some (c', st') ->
  journal st' = journal st ++ evs ->
  Ev (CallCommand argv out) e ∈ evs ->
  Query r = pre ++ ("quality", q) :: rest ->
  Forall (fun kv : string * string => kv.1 <> "quality") pre ->
  argv !! 2%nat = Some q.
Proof.
  intros Hv Hr Hs J Hin HQ Hpre.
  pose proof (serve_run_events _ _ _ _ _ _ _ Hr Hs J) as R.
  destruct (run_command _ _ _ _ _ _ _ _ _ _ _ R Hin)
    as (file & hdr & tempDir & p & st2 & st3 & _ & _ & _ & ->).
  simpl. f_equal. apply qualityArg_supplied; [done |].
  by eapply GetQuery_first.
Qed.

Lemma quality_passed_unchecked_witness :
  let w := sample_world ∅ sample_encoder in
  let r := upload "photo.JPG" [("width", "10"); ("quality", ""); ("quality", "50")] in
  let argv := ["/app/libwebp/bin/cwebp"; "-q"; ""; "/tmp/webp-convert-7/photo.JPG"; "-o";
               "/tmp/webp-convert-7/photo.webp"] in
  Ev (CallCommand argv "Saving file") None ∈ entries main_go_b w r sample_state
  /\ argv !! 2%nat = Some "".
Proof.
  intros w r argv.
  assert (Ev (CallCommand argv "Saving file") None ∈ entries main_go_b w r sample_state) as Hin.
  { vm_compute. do 4 apply list_elem_of_further. apply list_elem_of_here. }
  split; [exact Hin |].
  apply (quality_passed_unchecked main_go_b w r sample_state
           (answer main_go_b w r sample_state).1 (answer main_go_b w r sample_state).2
           (entries main_go_b w r sample_state) argv "Saving file" None
           [("width", "10")] [("quality", "50")] "").
  - discriminate.
  - split; reflexivity.
  - vm_compute. reflexivity.
  - vm_compute. reflexivity.
  - exact Hin.
  - reflexivity.
  - repeat constructor. discriminate.
Defined.

(** ** The disk around a request *)

Lemma cleaned_after_dotdot r m x : cleaned r (".." :: m) -> x ∈ m -> x = "..".
Proof.
  revert x. induction m as [|y m IH]; intros x Hc Hx; [by apply elem_of_nil in Hx |].
  destruct Hc as (_ & Hm & Hdd). destruct (Hdd eq_refl) as [_ ->].
  apply elem_of_cons in Hx as [-> | Hx]; [done |]. by apply IH.
Qed.

Lemma cleaned_app_r r l m : cleaned r (l ++ m) -> cleaned r m.
Proof. induction l as [|x l IH]; simpl; [done |]. intros (_ & H & _). by apply IH. Qed.

(** Nothing lies under a path at which nothing is. *)
Lemma no_orphans fs kd k :
  wf_disk fs -> present fs kd = false -> under kd k -> fs !! k = None.
Proof.
  intros Hwf Hnp [H1' [l Hl]].
  apply not_present_shape in Hnp as (Hnone & top & rest & Hshape & Htop).
  revert k H1' Hl. induction l as [|e l IH]; intros [kr ks] Hr Hl; simpl in *.
  - subst. by destruct kd.
  - destruct (fs !! (kr, ks)) as [n|] eqn:E; [| done]. exfalso.
    destruct (Hwf _ _ E) as [Hc Hd]. simpl in Hc. subst ks.
    unfold is_dir, parent in Hd. simpl in Hd.
    rewrite (IH (kr, l ++ kd.2)) in Hd by done. rewrite orb_false_r in Hd.
    unfold implicit_dir in Hd. simpl in Hd.
    destruct Hc as (_ & Hc & _).
    destruct l as [|x l]; simpl in Hd.
    + rewrite Hshape in Hd. apply String.eqb_eq in Hd. done.
    + apply String.eqb_eq in Hd. subst x. apply Htop.
      apply (cleaned_after_dotdot kr (l ++ kd.2)); [exact Hc |].
      rewrite Hshape. apply elem_of_app. right. apply list_elem_of_here.
Qed.

Lemma Copy_disk w dst data st res st1 :
  Copy w dst data st = (res, st1) ->
  exists d, disk st1 = <[dst := File d]> (disk st).
Proof.
  unfold Copy. intros H. destruct (copy_fault w); inversion H; subst; by eexists.
Qed.

Lemma under_parent_entry (d : path) e : parent (d.1, e :: d.2) = (d.1, d.2).
Proof. reflexivity. Qed.

Lemma under_pair (d k : path) : under (d.1, d.2) k <-> under d k.
Proof. by destruct d. Qed.

Lemma not_under_ne (d k : path) : ~ under d k -> d <> k.
Proof. intros H ->. apply H, under_refl. Qed.

Lemma not_under_entry_ne (d k : path) e : ~ under d k -> (d.1, e :: d.2) <> k.
Proof.
  intros H <-. apply H. apply under_entry.
Qed.

(** What the handler does between the making of the directory and its
    removal stays inside the directory, as long as the encoder does. *)
Lemma staged_run_frame v w r file hdr dir prefix st0 tempDir c st evs c' st' k :
  MkdirTemp w dir prefix st0 = (Ok tempDir, st) ->
  base_name (Filename hdr) = true ->
  encoder_confined w ->
  staged_run v w r file hdr tempDir c st evs c' st' ->
  ~ under (key_of tempDir) k ->
  disk st' !! k = disk st !! k.
Proof.
  intros HM Hf Hconf HS Hk.
  assert (forall inputFile st1 (u : result unit) st2,
            Create w (Join [tempDir; Filename hdr]) st = (Ok inputFile, st1) ->
            Copy w inputFile file st1 = (u, st2) ->
            has_slash (Filename hdr) = false
            /\ tempDir <> ""
            /\ disk st2 !! k = disk st !! k) as Hstage.
  { intros inputFile st1 u st2 HC HCp.
    destruct (staged_input_key _ _ _ _ _ _ _ _ _ HM Hf HC) as (Hne & Hns & Hkey).
    apply Create_Ok in HC as (_ & _ & Hd1 & _).
    apply Copy_disk in HCp as [d Hd2].
    split; [done |]. split; [done |].
    rewrite Hd2, lookup_insert_ne, Hd1, lookup_insert_ne; try done;
      subst inputFile; by apply not_under_entry_ne. }
  assert (forall cwebpPath q st3 st4 out e,
            has_slash (Filename hdr) = false -> tempDir <> "" ->
            CombinedOutput w
              [cwebpPath; "-q"; q; Join [tempDir; Filename hdr]; "-o";
               Join [tempDir; outputFilename (Filename hdr)]] st3 = (out, e, st4) ->
            disk st4 !! k = disk st3 !! k) as Hcmd.
  { intros cwebpPath q st3 st4 out e Hns Hne HC.
    apply CombinedOutput_inv in HC.
    apply (Hconf _ _ _ _ _ _ k HC eq_refl).
    destruct (outputFilename_plain _ Hns) as [Hp Hdd].
    rewrite key_of_Join_plain by done. rewrite under_parent_entry.
    by rewrite under_pair. }
  inversion HS; subst;
    repeat match goal with
    | H : Create _ _ _ = (Err _, _) |- _ => apply Create_Err in H as (? & _)
    | H : ReadFile _ _ _ = _ |- _ => apply ReadFile_inv in H as (_ & ? & _)
    | H : encoderPath _ _ _ = _ |- _ =>
        apply encoderPath_inv in H as (? & _)
    end;
    try match goal with
    | HC : Create _ _ _ = (Ok _, _), HCp : Copy _ _ _ _ = _ |- _ =>
        destruct (Hstage _ _ _ _ HC HCp) as (Hns & Hne & Hd)
    end;
    try match goal with
    | HC : CombinedOutput _ _ _ = _ |- _ =>
        pose proof (Hcmd _ _ _ _ _ _ Hns Hne HC)
    end;
    congruence.
Qed.

Lemma is_dir_present fs k : is_dir fs k = true -> present fs k = true.
Proof.
  unfold is_dir, present. destruct (implicit_dir k); [done |]. simpl.
  by destruct (fs !! k) as [[|d]|].
Qed.

(** A new node in a directory keeps the disk a filesystem. *)
Lemma wf_disk_insert fs k n :
  wf_disk fs -> cleaned k.1 k.2 -> present fs k = false ->
  is_dir fs (parent k) = true -> wf_disk (<[k := n]> fs).
Proof.
  intros Hwf Hc Hp Hd k' n' H.
  assert (forall p, is_dir fs p = true -> is_dir (<[k := n]> fs) p = true) as Hmono.
  { intros p Hdp. unfold is_dir. destruct (decide (p = k)) as [-> | Hne].
    - apply is_dir_present in Hdp. congruence.
    - by rewrite lookup_insert_ne. }
  destruct (decide (k' = k)) as [-> | Hne]; [by split; [| apply Hmono] |].
  rewrite lookup_insert_ne in H by done.
  destruct (Hwf _ _ H) as [Hc' Hd']. split; [done | by apply Hmono].
Qed.

(** The disk as [FormFile] leaves it is a filesystem still, and holds
    what it held. *)
Lemma FormFile_wf w r key st res st0 :
  wf_disk (disk st) -> FormFile w r key st = (res, st0) ->
  wf_disk (disk st0) /\ forall k, disk st0 !! k = None -> disk st !! k = None.
Proof.
  intros Hwf H.
  apply FormFile_disk in H as [-> | (name & parts & _ & Hp & Hd & _ & _ & ->)]; [done |].
  split.
  - apply wf_disk_insert; [done | apply key_of_cleaned | done | done].
  - intros k Hk. by apply lookup_insert_None in Hk as [? _].
Qed.

(** X7: once the form is parsed, a request for the conversion leaves the
    disk as it was, on every way out, provided that the disk is a
    filesystem (every node lies in a directory) and that the encoder
    changes nothing outside the directory of its output: the temporary
    directory was not there before, all that the handler writes lies in
    it, and it is removed with its content.  The parser writes to the
    disk only when the files of the form do not fit in its 32 MiB
    together; when they fit, the disk after the request is the disk
    before it. *)
Theorem request_leaves_disk_unchanged (v : variant) (w : World) (r : Request)
    (st : State) (c' : Context) (st' : State) :
  to_convert r ->
  wf_disk (disk st) ->
  encoder_confined w ->
  serve v w r st = Some (c', st') ->
  disk st' = disk (FormFile w r "image" st).2
  /\ (fits_in_memory r -> disk st' = disk st).
Proof.
  intros Hr Hwf Hconf Hs.
  destruct (serve_run _ _ _ _ _ _ Hr Hs) as (evs & R & _).
  assert (forall res st0, FormFile w r "image" st = (res, st0) ->
            disk st' = disk st0 ->
            disk st' = disk (FormFile w r "image" st).2
            /\ (fits_in_memory r -> disk st' = disk st)) as Hend.
  { intros res st0 HF E. rewrite HF. split; [done |].
    intros Hf. rewrite E. by eapply FormFile_fits. }
  inversion R as [ msg st0 HF | file hdr st0 msg st1 HF HM
                 | file hdr st0 tempDir st1 sevs c1 st1' HF HM HS]; subst.
  - by eapply Hend.
  - eapply Hend; [done |]. by apply MkdirTemp_Err in HM as (HM & _).
  - eapply Hend; [done |].
    pose proof (FormFile_base_name _ _ _ _ _ _ _ HF) as Hb.
    destruct (FormFile_wf _ _ _ _ _ _ Hwf HF) as [Hwf0 _].
    pose proof (MkdirTemp_Ok _ _ _ _ _ _ HM) as (Hnp & _ & Hd & _).
    apply map_eq. intros k.
    destruct (decide (under (key_of tempDir) k)) as [Hu | Hu].
    + rewrite RemoveAll_gone by done. symmetry. by eapply no_orphans.
    + rewrite RemoveAll_kept by done.
      rewrite (staged_run_frame _ _ _ _ _ _ _ _ _ _ _ _ _ _ k HM Hb Hconf HS Hu).
      rewrite Hd. apply lookup_insert_ne. by apply not_under_ne.
Qed.

Lemma sample_state_wf : wf_disk (disk sample_state).
Proof.
  intros k n H. simpl in H. apply lookup_singleton_Some in H as [<- _].
  split; [| reflexivity]. simpl. repeat split; done.
Qed.

Lemma under_own_parent (k : path) : under (parent k) k.
Proof.
  split; [done |]. simpl. destruct k.2 as [|e l]; [by exists [] | by exists [e]].
Qed.

Lemma sample_encoder_confined env : encoder_confined (sample_world env sample_encoder).
Proof.
  intros argv fs fs' out e o k Hrun Ho Hk. simpl in Hrun. unfold sample_encoder in Hrun.
  do 7 (destruct argv as [|? argv]; try (by inversion Hrun)).
  inversion Hrun; subst. simpl in Ho. inversion Ho; subst.
  apply lookup_insert_ne. intros <-. apply Hk, under_own_parent.
Qed.

Lemma request_leaves_disk_unchanged_witness :
  disk (answer main_go_a (sample_world ∅ sample_encoder)
          (upload "photo.JPG" [("quality", "75")]) sample_state).2
  = disk sample_state.
Proof.
  apply (request_leaves_disk_unchanged main_go_a (sample_world ∅ sample_encoder)
           (upload "photo.JPG" [("quality", "75")]) sample_state
           (answer main_go_a (sample_world ∅ sample_encoder)
              (upload "photo.JPG" [("quality", "75")]) sample_state).1).
  - split; reflexivity.
  - apply sample_state_wf.
  - apply sample_encoder_confined.
  - vm_compute. reflexivity.
  - vm_compute. discriminate.
Defined.

(** X8: the handler never writes over what was on the disk before the
    request: on a disk that is a filesystem, nothing was at the path of
    the temporary directory, nor at the path where the upload is
    created. *)
Theorem request_writes_fresh_paths (v : variant) (w : World) (r : Request)
    (st : State) (c' : Context) (st' : State) (evs : list event) :
  to_convert r ->
  wf_disk (disk st) ->
  serve v w r st = Some (c', st') ->
  journal st' = journal st ++ evs ->
  (forall tempDir, Ev (CallMkdirTemp tempDir) None ∈ evs ->
     disk st !! key_of tempDir = None)
  /\ (forall name, Ev (CallCreate name) None ∈ evs -> disk st !! key_of name = None).
Proof.
  intros Hr Hwf Hs J.
  pose proof (serve_run_events _ _ _ _ _ _ _ Hr Hs J) as R.
  inversion R as [ msg st0 HF | file hdr st0 msg st1 HF HM
                 | file hdr st0 tempDir0 st1 sevs c1 st1' HF HM HS]; subst.
  - split; intros x Hin; entry_cases Hin; discriminate Hin.
  - split; intros x Hin; entry_cases Hin; discriminate Hin.
  - pose proof (FormFile_base_name _ _ _ _ _ _ _ HF) as Hb.
    destruct (FormFile_wf _ _ _ _ _ _ Hwf HF) as [Hwf0 Hold].
    pose proof (MkdirTemp_Ok _ _ _ _ _ _ HM) as (Hnp & _ & _ & _).
    destruct (staged_run_paths _ _ _ _ _ _ _ _ _ _ _ _ _ _ HM Hb HS) as (P1 & _ & _).
    assert (forall k, under (key_of tempDir0) k -> disk st !! k = None) as Hfresh.
    { intros k Hk. apply Hold. by eapply no_orphans. }
    split.
    + intros tempDir Hin.
      assert (tempDir = tempDir0) as ->; [| apply Hfresh, under_refl].
      entry_cases Hin; try discriminate Hin;
        [by unfold Ev in Hin; congruence |].
      exfalso. clear -HS Hin.
      inversion HS; subst; try pevs_facts; entry_cases Hin; try discriminate Hin;
        getwd_entry Hin; discriminate.
    + intros name Hin. apply Hfresh, P1.
      entry_cases Hin; try discriminate Hin. exact Hin.
Qed.

Lemma request_writes_fresh_paths_witness :
  disk sample_state !! key_of "/tmp/webp-convert-7/photo.JPG" = None.
Proof.
  refine (proj2 (request_writes_fresh_paths part_001 (sample_world ∅ sample_encoder)
                   (upload "photo.JPG" []) sample_state
                   (answer part_001 (sample_world ∅ sample_encoder)
                      (upload "photo.JPG" []) sample_state).1
                   (answer part_001 (sample_world ∅ sample_encoder)
                      (upload "photo.JPG" []) sample_state).2
                   (entries part_001 (sample_world ∅ sample_encoder)
                      (upload "photo.JPG" []) sample_state) _ _ _ _)
            "/tmp/webp-convert-7/photo.JPG" _).
  - split; reflexivity.
  - apply sample_state_wf.
  - vm_compute. reflexivity.
  - vm_compute. reflexivity.
  - vm_compute. do 2 apply list_elem_of_further. apply list_elem_of_here.
Defined.

(** ** Failures of the configuration *)

Lemma journal_same_nil (st : State) (pevs : list event) :
  journal st = journal st ++ pevs -> pevs = [].
Proof.
  intros H. rewrite <- (app_nil_r (journal st)) in H at 1.
  by apply app_inv_head in H.
Qed.

(** When [os.Getwd] fails while the encoder is looked for, the two
    programs of [src/main.go] report the text of the error, [part_000]
    a fixed text. *)
Lemma encoderPath_Getwd_failed v w st res st' pevs msg :
  encoderPath v w st = (res, st') ->
  journal st' = journal st ++ pevs ->
  Ev CallGetwd (Some msg) ∈ pevs ->
  ((v = main_go_a \/ v = main_go_b)
   /\ res = Err ("failed to get working directory: " +:+ msg))
  \/ (v = part_000 /\ res = Err "Failed to get working directory").
Proof.
  assert (forall unset, getCwebpPath unset w st = (res, st') ->
            journal st' = journal st ++ pevs ->
            Ev CallGetwd (Some msg) ∈ pevs ->
            res = Err ("failed to get working directory: " +:+ msg)) as G.
  { intros unset. unfold getCwebpPath, Getwd.
    destruct (negb _);
      [| intros H J Hin; inversion H; subst; apply journal_same_nil in J; subst;
         by apply elem_of_nil in Hin].
    destruct (HasPrefix _ _);
      [intros H J Hin; inversion H; subst; apply journal_same_nil in J; subst;
       by apply elem_of_nil in Hin |].
    destruct (cwd w) as [wd|e] eqn:E; intros H J Hin; inversion H; subst;
      simpl in J; apply app_inv_head in J; subst pevs;
      apply list_elem_of_singleton in Hin; unfold Ev in Hin; by inversion Hin. }
  destruct v; simpl; intros H J Hin.
  - left. split; [by left | by eapply G].
  - left. split; [by right | by eapply G].
  - right. split; [done |]. revert H. unfold Getwd.
    destruct (String.eqb _ _).
    + intros H; inversion H; subst. apply journal_same_nil in J. subst.
      by apply elem_of_nil in Hin.
    + destruct (cwd w) as [wd|e] eqn:E; intros H; inversion H; subst;
        simpl in J; apply app_inv_head in J; subst pevs;
        apply list_elem_of_singleton in Hin; unfold Ev in Hin; by inversion Hin.
  - inversion H; subst. apply journal_same_nil in J. subst.
    by apply elem_of_nil in Hin.
Qed.

(** X9: when the working directory cannot be determined while the
    encoder is looked for, the request is answered with status 500 and
    the encoder is not started; the two programs of [src/main.go] put
    the text of the system's error into the ["error"] field, after
    ["failed to get working directory: "], and [part_000] answers with
    the fixed text ["Failed to get working directory"]. *)
Theorem getwd_failure_answer (v : variant) (w : World) (r : Request) (st : State)
    (c' : Context) (st' : State) (evs : list event) (msg : string) :
  to_convert r ->
  serve v w r st = Some (c', st') ->
  journal st' = journal st ++ evs ->
  Ev CallGetwd (Some msg) ∈ evs ->
  status c' = 500
  /\ (forall argv out e, Ev (CallCommand argv out) e ∉ evs)
  /\ (((v = main_go_a \/ v = main_go_b)
       /\ payload c' = JSONBody {[ "error" := "failed to get working directory: " +:+ msg ]})
      \/ (v = part_000
          /\ payload c' = JSONBody {[ "error" := "Failed to get working directory" ]})).
Proof.
  intros Hr Hs J Hin.
  pose proof (serve_run_events _ _ _ _ _ _ _ Hr Hs J) as R.
  inversion R as [ m st0 HF | file hdr st0 m st1 HF HM
                 | file hdr st0 tempDir st1 sevs c1 st1' HF HM HS]; subst.
  - entry_cases Hin; discriminate Hin.
  - entry_cases Hin; discriminate Hin.
  - assert (Ev CallGetwd (Some msg) ∈ sevs) as Hs'.
    { entry_cases Hin; try discriminate Hin; done. }
    clear Hin.
    inversion HS; subst;
      try match goal with
          | HP : encoderPath _ _ _ = _, JP : journal _ = journal _ ++ ?p |- _ =>
              pose proof (encoderPath_Getwd_failed _ _ _ _ _ _ msg HP JP) as HG
          end;
      try pevs_facts; entry_cases Hs'; try discriminate Hs';
      try (getwd_entry Hs';
           match goal with
           | Hf : forall p : string, Ok ?x = Ok p -> failure _ = None |- _ =>
               specialize (Hf x eq_refl); discriminate Hf
           end).
    split; [done |]. split.
    + intros argv out e Hc. entry_cases Hc; try discriminate Hc.
      getwd_entry Hc. discriminate.
    + destruct (HG Hs') as [[Hv Hres] | [Hv Hres]]; inversion Hres; subst;
        [left | right]; done.
Qed.

Lemma getwd_failure_answer_witness :
  status (answer main_go_a lost_world (upload "photo.JPG" []) sample_state).1 = 500
  /\ payload (answer main_go_a lost_world (upload "photo.JPG" []) sample_state).1
     = JSONBody {[ "error" := "failed to get working directory: getwd: no such file or directory" ]}.
Proof.
  destruct (getwd_failure_answer main_go_a lost_world (upload "photo.JPG" []) sample_state
              (answer main_go_a lost_world (upload "photo.JPG" []) sample_state).1
              (answer main_go_a lost_world (upload "photo.JPG" []) sample_state).2
              (entries main_go_a lost_world (upload "photo.JPG" []) sample_state)
              "getwd: no such file or directory")
    as (H500 & _ & [[_ Hp] | [Hv _]]).
  - split; reflexivity.
  - vm_compute. reflexivity.
  - vm_compute. reflexivity.
  - vm_compute. do 4 apply list_elem_of_further. apply list_elem_of_here.
  - split; [exact H500 | exact Hp].
  - discriminate Hv.
Defined.

(** X10: without [LIBWEBP_PATH], [part_000] converts nothing: no request
    is answered with status 200 and the encoder is never started; a
    request whose upload was staged is answered with status 500 and
    ["LIBWEBP_PATH environment variable not set"], after the work of
    staging it. *)
Theorem part_000_needs_LIBWEBP_PATH (w : World) (r : Request) (st : State)
    (c' : Context) (st' : State) (evs : list event) :
  Getenv w "LIBWEBP_PATH" = "" ->
  to_convert r ->
  serve part_000 w r st = Some (c', st') ->
  journal st' = journal st ++ evs ->
  status c' <> 200
  /\ (forall argv out e, Ev (CallCommand argv out) e ∉ evs)
  /\ (forall dst, Ev (CallCopy dst) None ∈ evs ->
      status c' = 500
      /\ payload c' = JSONBody {[ "error" := "LIBWEBP_PATH environment variable not set" ]}).
Proof.
  intros He Hr Hs J.
  pose proof (serve_run_events _ _ _ _ _ _ _ Hr Hs J) as R.
  assert (forall st2 p st3, encoderPath part_000 w st2 = (Ok p, st3) -> False) as Hno.
  { intros st2 p st3. simpl. rewrite He. simpl. discriminate. }
  assert (forall st2 m st3, encoderPath part_000 w st2 = (Err m, st3) ->
            m = "LIBWEBP_PATH environment variable not set" /\ st3 = st2) as Hmsg.
  { intros st2 m st3. simpl. rewrite He. simpl. intros H. by inversion H. }
  inversion R as [ m st0 HF | file hdr st0 m st1 HF HM
                 | file hdr st0 tempDir st1 sevs c1 st1' HF HM HS]; subst.
  - split; [done |]. split.
    + intros argv out e Hc. entry_cases Hc; discriminate Hc.
    + intros dst Hc. entry_cases Hc; discriminate Hc.
  - split; [done |]. split.
    + intros argv out e Hc. entry_cases Hc; discriminate Hc.
    + intros dst Hc. entry_cases Hc; discriminate Hc.
  - inversion HS; subst;
      try (exfalso; by eapply Hno);
      try match goal with
          | HP : encoderPath _ _ _ = (Err _, _), JP : journal _ = journal _ ++ _ |- _ =>
              destruct (Hmsg _ _ _ HP) as [-> ->]; apply journal_same_nil in JP; subst
          end.
    all: split; [done |]; split.
    all: try (intros argv out e Hc; entry_cases Hc; discriminate Hc).
    all: intros dst Hc; entry_cases Hc; try discriminate Hc.
    done.
Qed.

Lemma part_000_needs_LIBWEBP_PATH_witness :
  status (answer part_000 (sample_world ∅ sample_encoder)
            (upload "photo.JPG" []) sample_state).1 <> 200.
Proof.
  apply (part_000_needs_LIBWEBP_PATH (sample_world ∅ sample_encoder)
           (upload "photo.JPG" []) sample_state
           (answer part_000 (sample_world ∅ sample_encoder)
              (upload "photo.JPG" []) sample_state).1
           (answer part_000 (sample_world ∅ sample_encoder)
              (upload "photo.JPG" []) sample_state).2
           (entries part_000 (sample_world ∅ sample_encoder)
              (upload "photo.JPG" []) sample_state)).
  - reflexivity.
  - split; reflexivity.
  - vm_compute. reflexivity.
  - vm_compute. reflexivity.
Defined.

(** ** What the encoder is given *)

Lemma Copy_Ok w dst data st u st1 :
  Copy w dst data st = (Ok u, st1) -> disk st1 = <[dst := File data]> (disk st).
Proof.
  unfold Copy. intros H. destruct (copy_fault w); by inversion H; subst.
Qed.

(** X11: when the encoder is started, the file at its input path holds
    the bytes of the upload, all of them and nothing else; an upload of
    no bytes at all is no exception and is handed over as an empty
    file. *)
Theorem encoder_reads_the_upload (v : variant) (w : World) (r : Request)
    (st : State) (c' : Context) (st' : State) (evs : list event)
    (file : string) (hdr : FileHeader)
    (argv : list string) (out : string) (e : option string) :
  to_convert r ->
  FormFile_pure r "image" = Ok (file, hdr) ->
  serve v w r st = Some (c', st') ->
  journal st' = journal st ++ evs ->
  Ev (CallCommand argv out) e ∈ evs ->
  exists fs fs' input,
    run w argv fs = (fs', out, e)
    /\ argv !! 3%nat = Some input
    /\ fs !! key_of input = Some (File file).
Proof.
  intros Hr HF Hs J Hin.
  destruct (serve_command_steps _ _ _ _ _ _ _ _ _ _ Hr Hs J Hin)
    as (file' & hdr' & st0 & tempDir & st1 & inputFile & st2 & u & st3 & p & st4
        & pevs & tl & HF' & HM & HC & HCp & HP & Ha & E & _ & _ & st5 & HCO).
  apply FormFile_Ok in HF'. symmetry in HF'. rewrite HF in HF'.
  inversion HF'; subst file' hdr'.
  apply Create_Ok in HC as (-> & _).
  apply Copy_Ok in HCp. apply encoderPath_inv in HP as (HP & _).
  apply CombinedOutput_inv in HCO.
  exists (disk st4), (disk st5), (Join [tempDir; Filename hdr]).
  split; [exact HCO |]. split; [by subst argv |].
  rewrite HP, HCp. apply lookup_insert_eq.
Qed.

Lemma encoder_reads_the_upload_witness :
  let w := sample_world ∅ sample_encoder in
  let r := mkRequest "POST" "/convert" [] (Some [mkPart "image" "empty.png" ""]) in
  let argv := ["cwebp"; "-q"; "80"; "/tmp/webp-convert-7/empty.png"; "-o";
               "/tmp/webp-convert-7/empty.webp"] in
  exists fs fs' input,
    run w argv fs = (fs', "Saving file", None)
    /\ argv !! 3%nat = Some input
    /\ fs !! key_of input = Some (File "").
Proof.
  intros w r argv.
  apply (encoder_reads_the_upload part_001 w r sample_state
           (answer part_001 w r sample_state).1 (answer part_001 w r sample_state).2
           (entries part_001 w r sample_state) "" (mkFileHeader "empty.png" 0)).
  - split; reflexivity.
  - reflexivity.
  - vm_compute. reflexivity.
  - vm_compute. reflexivity.
  - vm_compute. do 4 apply list_elem_of_further. apply list_elem_of_here.
Defined.

(** ** The headers of the answers *)

Lemma writeContentType_other value (h : gmap string string) key :
  key <> "Content-Type" -> writeContentType value h !! key = h !! key.
Proof.
  intros Hk. unfold writeContentType.
  destruct (h !! "Content-Type"); [done |]. by rewrite lookup_insert_ne.
Qed.

Lemma writeContentType_fresh value (h : gmap string string) :
  h !! "Content-Type" = None -> writeContentType value h !! "Content-Type" = Some value.
Proof. intros H. unfold writeContentType. rewrite H. apply lookup_insert_eq. Qed.

(** The handler touches two headers only. *)
Lemma convert_run_headers v w r c st evs c' st' key :
  convert_run v w r c st evs c' st' ->
  key <> "Content-Type" -> key <> "Content-Disposition" ->
  header c' !! key = header c !! key.
Proof.
  intros R H1' H2'.
  inversion R as [ | | file hdr st0 tempDir st1 sevs c1 st1' HF HM HS]; subst;
    try (simpl; by apply writeContentType_other).
  inversion HS; subst; simpl; rewrite writeContentType_other by done; try done.
  by rewrite lookup_insert_ne.
Qed.

(** X12: an answer that reports a failure of the conversion is JSON and
    offers no attachment: its content type is
    [application/json; charset=utf-8] and it has no
    [Content-Disposition] header. *)
Theorem failure_answer_headers (v : variant) (w : World) (r : Request)
    (st : State) (c' : Context) (st' : State) :
  to_convert r ->
  serve v w r st = Some (c', st') ->
  status c' <> 200 ->
  header c' !! "Content-Type" = Some "application/json; charset=utf-8"
  /\ header c' !! "Content-Disposition" = None.
Proof.
  intros Hr Hs H200.
  destruct (serve_run _ _ _ _ _ _ Hr Hs) as (evs & R & _).
  pose proof (context0_no_content_type v w) as Hct.
  pose proof (context0_no_disposition v w) as Hcd.
  inversion R as [ | | file hdr st0 tempDir st1 sevs c1 st1' HF HM HS]; subst;
    try (simpl; split;
         [by apply writeContentType_fresh | by rewrite writeContentType_other]).
  inversion HS; subst; try done;
    simpl; split;
    (by apply writeContentType_fresh) || (by rewrite writeContentType_other).
Qed.

Lemma failure_answer_headers_witness :
  header (answer main_go_b (sample_world ∅ failing_encoder)
            (upload "photo.JPG" []) sample_state).1 !! "Content-Type"
  = Some "application/json; charset=utf-8"
  /\ header (answer main_go_b (sample_world ∅ failing_encoder)
               (upload "photo.JPG" []) sample_state).1 !! "Content-Disposition" = None.
Proof.
  apply (failure_answer_headers main_go_b (sample_world ∅ failing_encoder)
           (upload "photo.JPG" []) sample_state _
           (answer main_go_b (sample_world ∅ failing_encoder)
              (upload "photo.JPG" []) sample_state).2).
  - split; reflexivity.
  - vm_compute. reflexivity.
  - vm_compute. discriminate.
Defined.

(** ** Routes and middleware *)

(** No handler touches a header other than the content type and the
    disposition. *)
Lemma serve_headers v w r st c' st' key :
  serve v w r st = Some (c', st') ->
  key <> "Content-Type" -> key <> "Content-Disposition" ->
  header c' !! key = header (context0 v w) !! key.
Proof.
  unfold serve. intros H K1 K2.
  destruct (cors (main v w).1 && String.eqb (Method r) "OPTIONS");
    [by inversion H |].
  destruct (lookup_route (main v w).1 r) as [[| |]|] eqn:E.
  - inversion H; subst. simpl. by apply writeContentType_other.
  - discriminate H.
  - inversion H as [H']. 
    destruct (convertToWebP_run _ _ _ _ _ _ _ H') as [evs R].
    by eapply convert_run_headers.
  - destruct (redirected (main v w).1 r); [discriminate H |].
    inversion H; subst. simpl. by rewrite lookup_insert_ne.
Qed.

(** X14: the middleware of [part_001] puts the three
    [Access-Control-Allow-*] headers on every answer of a handler and on
    the answer to a route that is not known, errors included, and
    answers every [OPTIONS] request with status 204 and no body before
    any handler runs; the other variants never send
    [Access-Control-Allow-Origin].  The engine's redirect of a path that
    differs from a route by a trailing slash is sent before the
    middleware runs and is not among these answers: [serve] has none for
    such a request. *)
Theorem cors_on_every_answer (v : variant) (w : World) (r : Request)
    (st : State) (c' : Context) (st' : State) :
  serve v w r st = Some (c', st') ->
  (v = part_001 ->
   header c' !! "Access-Control-Allow-Origin" = Some "*"
   /\ header c' !! "Access-Control-Allow-Methods" = Some "GET, POST, OPTIONS"
   /\ header c' !! "Access-Control-Allow-Headers" = Some "Content-Type"
   /\ (Method r = "OPTIONS" -> status c' = 204 /\ payload c' = NoBody /\ st' = st))
  /\ (v <> part_001 -> header c' !! "Access-Control-Allow-Origin" = None).
Proof.
  intros H. split.
  - intros ->. repeat split.
    + by rewrite (serve_headers _ _ _ _ _ _ _ H).
    + by rewrite (serve_headers _ _ _ _ _ _ _ H).
    + by rewrite (serve_headers _ _ _ _ _ _ _ H).
    + revert H. unfold serve. rewrite H0. simpl. intros H. by inversion H.
    + revert H. unfold serve. rewrite H0. simpl. intros H. by inversion H.
    + revert H. unfold serve. rewrite H0. simpl. intros H. by inversion H.
  - intros Hv. rewrite (serve_headers _ _ _ _ _ _ _ H) by done.
    by destruct v.
Qed.

Lemma cors_on_every_answer_witness :
  header (answer part_001 (sample_world ∅ failing_encoder)
            (upload "photo.JPG" []) sample_state).1 !! "Access-Control-Allow-Origin"
  = Some "*".
Proof.
  apply (cors_on_every_answer part_001 (sample_world ∅ failing_encoder)
           (upload "photo.JPG" []) sample_state _
           (answer part_001 (sample_world ∅ failing_encoder)
              (upload "photo.JPG" []) sample_state).2).
  - vm_compute. reflexivity.
  - reflexivity.
Defined.

(** ** The path of the encoder under an override *)

Lemma key_of_bin_cwebp s :
  s <> "" ->
  key_of (Clean (s +:+ String slash "bin/cwebp"))
  = ((key_of s).1, "cwebp" :: "bin" :: (key_of s).2).
Proof.
  intros Hs. rewrite key_of_Clean. unfold key_of.
  rewrite rooted_app, split_slash_app, clean_elems_app by done. reflexivity.
Qed.

Lemma string_app_nonempty a b : a <> "" -> a +:+ b <> "".
Proof. by destruct a. Qed.

Lemma Join_bin_cwebp o :
  o <> "" ->
  key_of (Join [o; "bin"; "cwebp"]) = ((key_of o).1, "cwebp" :: "bin" :: (key_of o).2).
Proof.
  intros Ho. unfold Join. apply String.eqb_neq in Ho as Ho'. rewrite Ho'.
  change (join_slash [o; "bin"; "cwebp"]) with (o +:+ String slash "bin/cwebp").
  by apply key_of_bin_cwebp.
Qed.

Lemma Join_wd_bin_cwebp wd o :
  o <> "" ->
  exists rt rest, key_of (Join [wd; o; "bin"; "cwebp"]) = (rt, "cwebp" :: "bin" :: rest).
Proof.
  intros Ho. destruct (decide (wd = "")) as [-> | Hwd].
  - change (Join [""; o; "bin"; "cwebp"]) with (Join [o; "bin"; "cwebp"]).
    rewrite Join_bin_cwebp by done. by eexists _, _.
  - assert (join_slash [wd; o; "bin"; "cwebp"]
            = (wd +:+ String slash o) +:+ String slash "bin/cwebp") as E.
    { change (join_slash [wd; o; "bin"; "cwebp"])
        with (wd +:+ String slash (o +:+ String slash "bin/cwebp")).
      clear. induction wd as [|c wd IH]; [reflexivity |].
      change (String c (wd +:+ String slash (o +:+ String slash "bin/cwebp"))
              = String c ((wd +:+ String slash o) +:+ String slash "bin/cwebp")).
      by rewrite IH. }
    unfold Join. apply String.eqb_neq in Hwd as Hwd'. rewrite Hwd', E.
    rewrite key_of_bin_cwebp by (by apply string_app_nonempty).
    by eexists _, _.
Qed.

(** X15: with an override in [LIBWEBP_PATH], the path of the encoder
    names the entry [cwebp] of a directory [bin], whatever dots, double
    slashes or trailing slashes the override holds, in the three
    variants that read it; in the two programs of [src/main.go] the
    path is rooted when the override starts with a slash. *)
Theorem override_leads_to_bin_cwebp (v : variant) (w : World) (st : State)
    (p : string) (st' : State) :
  v <> part_001 ->
  Getenv w "LIBWEBP_PATH" <> "" ->
  encoderPath v w st = (Ok p, st') ->
  (exists rt rest, key_of p = (rt, "cwebp" :: "bin" :: rest))
  /\ (v <> part_000 -> HasPrefix (Getenv w "LIBWEBP_PATH") "/" = true ->
      (key_of p).1 = true).
Proof.
  intros Hv Ho.
  assert (HasPrefix (Getenv w "LIBWEBP_PATH") "/" = true ->
          (key_of (Getenv w "LIBWEBP_PATH")).1 = true) as Hroot.
  { unfold HasPrefix. destruct (Getenv w "LIBWEBP_PATH") as [|c s]; [done |].
    change ((if ascii_dec "/" c then String.prefix "" s else false) = true
            -> is_slash c = true).
    destruct (ascii_dec "/" c) as [<- |]; [reflexivity | discriminate]. }
  assert (forall unset, getCwebpPath unset w st = (Ok p, st') ->
            (exists rt rest, key_of p = (rt, "cwebp" :: "bin" :: rest))
            /\ (HasPrefix (Getenv w "LIBWEBP_PATH") "/" = true -> (key_of p).1 = true)) as G.
  { intros unset. unfold getCwebpPath, Getwd.
    apply String.eqb_neq in Ho as Ho'. rewrite Ho'. cbn [negb].
    destruct (HasPrefix (Getenv w "LIBWEBP_PATH") "/") eqn:E.
    - intros H.
      assert (p = Join [Getenv w "LIBWEBP_PATH"; "bin"; "cwebp"]) as -> by congruence.
      rewrite Join_bin_cwebp by done.
      split; [by eexists _, _ | intros _; by apply Hroot].
    - destruct (cwd w) as [wd|e]; intros H; [| discriminate H].
      assert (p = Join [wd; Getenv w "LIBWEBP_PATH"; "bin"; "cwebp"]) as -> by congruence.
      split; [by apply Join_wd_bin_cwebp | done]. }
  destruct v; cbn [encoderPath]; try done.
  - intros H. destruct (G _ H) as [G1 G2]. split; [done | by intros _].
  - intros H. destruct (G _ H) as [G1 G2]. split; [done | by intros _].
  - unfold Getwd. apply String.eqb_neq in Ho as Ho'. rewrite Ho'.
    destruct (cwd w) as [wd|e]; intros H; [| discriminate H].
    assert (p = Join [wd; Getenv w "LIBWEBP_PATH"; "bin"; "cwebp"]) as -> by congruence.
    split; [by apply Join_wd_bin_cwebp | done].
Qed.

Lemma override_leads_to_bin_cwebp_witness :
  exists rt rest,
    key_of "/opt/bin/cwebp" = (rt, "cwebp" :: "bin" :: rest).
Proof.
  apply (override_leads_to_bin_cwebp main_go_a
           (sample_world {[ "LIBWEBP_PATH" := "/opt//libwebp/../" ]} sample_encoder)
           sample_state "/opt/bin/cwebp" sample_state).
  - discriminate.
  - vm_compute. discriminate.
  - vm_compute. reflexivity.
Defined.
